(** * langinfo: the language-identification database of komodo-python-sitelib

    A shallow embedding of [src/langinfo.py] (Python 2): the [LangInfo]
    descriptors, the [Database] that holds them, the tables
    [_build_tables] derives, the five lookups and the conformance walk
    ([conforms_to], [conformant_attr]).

    Layout: the Python values the module handles, the parts of the Python
    runtime it relies on ([sys.platform], the [struct] module, the iteration
    order of a [dict]), then the module itself, then the theorems. *)

From Stdlib Require Import ZArith List String Ascii Bool Lia.
From stdpp Require Import base option gmap strings list fin_maps.

Set Default Proof Using "Type".

(** ** Python values *)

Module Py.

(** The exceptions that can leave the modelled code. [RuntimeError] is
    what Python 2 raises when the recursion limit is exceeded. *)
Inductive Exn :=
| LangInfoError
| TypeError
| AttributeError
| UnboundLocalError
| IndexError
| StructError
| RuntimeError.

(** The outcome of a call: a value, or an exception that propagates. *)
Inductive Res (A : Type) :=
| Ok (a : A)
| Raise (e : Exn).
Arguments Ok {A} a.
Arguments Raise {A} e.

(** A compiled regular expression: the identity of the object
    ([id(pattern)], its address), its source and what [search(s, pos)]
    answers (a match object is truthy, [None] is not). *)
Record Regex := {
  re_id : Z;
  re_source : string;
  re_search : string -> Z -> bool
}.

(** The scalars found inside magic-number tuples and extra attributes. *)
Inductive PyVal :=
| PNone
| PBool (b : bool)
| PInt (z : Z)
| PStr (s : string)
| PRegex (r : Regex).

(** [int(v)] for the values that behave as integers ([bool] is an [int]). *)
Definition as_int (v : PyVal) : option Z :=
  match v with
  | PInt z => Some z
  | PBool b => Some (if b then 1%Z else 0%Z)
  | _ => None
  end.

(** [len(v)]; [None] stands for the [TypeError] of an unsized value. *)
Definition py_len (v : PyVal) : option Z :=
  match v with
  | PStr s => Some (Z.of_nat (String.length s))
  | _ => None
  end.

(** [a == b]. Numbers compare by value, strings by content, compiled
    patterns by identity. *)
Definition py_eq (a b : PyVal) : bool :=
  match a, b with
  | PNone, PNone => true
  | PStr s, PStr t => String.eqb s t
  | PRegex r, PRegex q => Z.eqb (re_id r) (re_id q)
  | _, _ =>
      match as_int a, as_int b with
      | Some x, Some y => Z.eqb x y
      | _, _ => false
      end
  end.

(** One end of a slice, clamped to [0..len] as [s[lo:hi]] does. *)
Definition clamp_index (len i : Z) : Z :=
  if (i <? 0)%Z then Z.max (i + len) 0 else Z.min i len.

(** [s[lo:hi]] on a string, with integer bounds. *)
Definition py_slice (s : string) (lo hi : Z) : string :=
  let len := Z.of_nat (String.length s) in
  let a := clamp_index len lo in
  let b := clamp_index len hi in
  String.substring (Z.to_nat a) (Z.to_nat (b - a)) s.

(** [c.lower()] on one byte, in the C locale. *)
Definition ascii_lower (c : ascii) : ascii :=
  let n := nat_of_ascii c in
  if (65 <=? n)%nat && (n <=? 90)%nat then ascii_of_nat (n + 32) else c.

(** [s.lower()]. *)
Fixpoint lower (s : string) : string :=
  match s with
  | EmptyString => EmptyString
  | String c rest => String (ascii_lower c) (lower rest)
  end.

(** [s.startswith(prefix)]. *)
Definition startswith (prefix s : string) : bool := String.prefix prefix s.

End Py.
Export Py.

(** ** The Python runtime the module runs on

    What the code reads from its runtime and this repository does not
    define: the platform name, the two [struct] functions it calls ([None]
    stands for [struct.error]), and the order in which a [dict] is
    iterated, as a function of its keys in order of first insertion (the
    code never deletes a key): for string keys, and for keys that are
    objects hashed by identity, given by their ids. *)

Class PyRuntime := {
  sys_platform : string;
  struct_calcsize : string -> option Z;
  struct_unpack : string -> string -> option (list PyVal);
  dict_iter_order : list string -> list string;
  object_iter_order : list Z -> list Z
}.

(** ** CPython 2.7

    The runtime the closed examples run on. [string_hash] and the table
    it feeds follow [Objects/stringobject.c] and [Objects/dictobject.c]
    of CPython 2.7 (hash randomisation off, its default). *)

Module CPython27.

(** Reduce to an unsigned machine word of [bits] bits. *)
Definition wrap (bits x : Z) : Z := (x mod 2 ^ bits)%Z.

Definition byte_of (c : ascii) : Z := Z.of_nat (nat_of_ascii c).

Fixpoint hash_loop (bits : Z) (x : Z) (s : string) : Z :=
  match s with
  | EmptyString => x
  | String c rest =>
      hash_loop bits (Z.lxor (wrap bits (1000003 * x)) (byte_of c)) rest
  end.

(** [string_hash]: the hash of a [str], as an unsigned [long]. *)
Definition string_hash (bits : Z) (s : string) : Z :=
  match s with
  | EmptyString => 0%Z
  | String c _ =>
      let x := hash_loop bits (wrap bits (Z.shiftl (byte_of c) 7)) s in
      let x := Z.lxor x (Z.of_nat (String.length s)) in
      if (x =? 2 ^ bits - 1)%Z then (2 ^ bits - 2)%Z else x
  end.

(** A slot of the hash table: empty, or a key with its hash. *)
Definition Slot := option (Z * string).

(** The probe sequence of [insertdict_clean]: the first free slot
    reached from [i], perturbing with the upper bits of the hash. *)
Fixpoint free_slot (fuel : nat) (table : list Slot) (mask i perturb : Z)
  : option nat :=
  match fuel with
  | O => None
  | S fuel' =>
      let idx := Z.to_nat (Z.land i mask) in
      match table !! idx with
      | Some None => Some idx
      | _ => free_slot fuel' table mask (i * 5 + perturb + 1)%Z
               (Z.shiftr perturb 5)
      end
  end.

Definition insert_clean (table : list Slot) (h : Z) (key : string)
  : list Slot :=
  let size := List.length table in
  let mask := (Z.of_nat size - 1)%Z in
  match free_slot (size + 64) table mask (Z.land h mask) h with
  | Some idx => <[idx := Some (h, key)]> table
  | None => table
  end.

(** The smallest power of two above [minused], starting from
    [PyDict_MINSIZE]. *)
Fixpoint grow (fuel : nat) (newsize minused : nat) : nat :=
  match fuel with
  | O => newsize
  | S fuel' =>
      if (newsize <=? minused)%nat then grow fuel' (2 * newsize) minused
      else newsize
  end.

Definition occupied (table : list Slot) : list (Z * string) :=
  omap id table.

(** [dictresize]: re-insert the live entries, in slot order, into a
    fresh table. *)
Definition dictresize (table : list Slot) (minused : nat) : list Slot :=
  let newsize := grow (S minused) 8 minused in
  fold_left (fun t e => insert_clean t (fst e) (snd e)) (occupied table)
    (replicate newsize None).

(** [PyDict_SetItem] with a key not yet in the table. *)
Definition setitem_new (bits : Z) (table : list Slot) (key : string)
  : list Slot :=
  let table' := insert_clean table (string_hash bits key) key in
  let used := List.length (occupied table') in
  if (2 * List.length table' <=? 3 * used)%nat
  then dictresize table' ((if (50000 <? Z.of_nat used)%Z then 2 else 4) * used)
  else table'.

(** The keys in slot order: what iterating the dict yields. *)
Definition iter_order (bits : Z) (keys : list string) : list string :=
  map snd (occupied (fold_left (setitem_new bits) keys (replicate 8 None))).

(** The fragment of [struct] used in the closed examples: an explicit
    byte order followed by fixed-width integer codes. Every other
    format is reported through [None]; CPython accepts more (repeat
    counts, pad bytes, characters, floats, native alignment), and the
    examples stay on formats where both agree. *)
Definition int_code (c : ascii) : option (bool * nat) :=
  if Ascii.eqb c "b" then Some (true, 1)
  else if Ascii.eqb c "B" then Some (false, 1)
  else if Ascii.eqb c "h" then Some (true, 2)
  else if Ascii.eqb c "H" then Some (false, 2)
  else if Ascii.eqb c "i" || Ascii.eqb c "l" then Some (true, 4)
  else if Ascii.eqb c "I" || Ascii.eqb c "L" then Some (false, 4)
  else if Ascii.eqb c "q" then Some (true, 8)
  else if Ascii.eqb c "Q" then Some (false, 8)
  else None.

Fixpoint int_codes (s : string) : option (list (bool * nat)) :=
  match s with
  | EmptyString => Some []
  | String c rest =>
      match int_code c, int_codes rest with
      | Some code, Some codes => Some (code :: codes)
      | _, _ => None
      end
  end.

(** [Some true] for little-endian, [Some false] for big-endian. *)
Definition byte_order (c : ascii) : option bool :=
  if Ascii.eqb c "<" then Some true
  else if Ascii.eqb c ">" || Ascii.eqb c "!" then Some false
  else None.

Definition parse_format (fmt : string) : option (bool * list (bool * nat)) :=
  match fmt with
  | EmptyString => None
  | String c rest =>
      match byte_order c, int_codes rest with
      | Some le, Some codes => Some (le, codes)
      | _, _ => None
      end
  end.

Definition calcsize (fmt : string) : option Z :=
  match parse_format fmt with
  | Some (_, codes) => Some (Z.of_nat (foldr (fun c n => snd c + n) 0 codes))
  | None => None
  end.

(** The unsigned value of a run of bytes, most significant first. *)
Definition be_value (bytes : list ascii) : Z :=
  fold_left (fun acc c => (acc * 256 + byte_of c)%Z) bytes 0%Z.

Definition decode_int (le signed : bool) (bytes : list ascii) : Z :=
  let u := be_value (if le then rev bytes else bytes) in
  let width := (8 * Z.of_nat (List.length bytes))%Z in
  if signed && (2 ^ (width - 1) <=? u)%Z then (u - 2 ^ width)%Z else u.

Fixpoint decode (le : bool) (codes : list (bool * nat)) (bytes : list ascii)
  : list PyVal :=
  match codes with
  | [] => []
  | (signed, n) :: rest =>
      PInt (decode_int le signed (take n bytes))
        :: decode le rest (drop n bytes)
  end.

Definition unpack (fmt data : string) : option (list PyVal) :=
  match parse_format fmt, calcsize fmt with
  | Some (le, codes), Some n =>
      if (Z.of_nat (String.length data) =? n)%Z
      then Some (decode le codes (list_ascii_of_string data))
      else None
  | _, _ => None
  end.

(** [_Py_HashPointer]: the hash of an object that defines none, from
    its address, as an unsigned [long]. *)
Definition pointer_hash (bits : Z) (p : Z) : Z :=
  let y := wrap bits (Z.lor (Z.shiftr (wrap bits p) 4)
                        (Z.shiftl (wrap bits p) (bits - 4))) in
  if (y =? 2 ^ bits - 1)%Z then (2 ^ bits - 2)%Z else y.

(** The same table with objects for keys: a slot holds the hash and the
    id of the key. *)
Definition ObjectSlot := option (Z * Z).

Fixpoint free_object_slot (fuel : nat) (table : list ObjectSlot)
    (mask i perturb : Z) : option nat :=
  match fuel with
  | O => None
  | S fuel' =>
      let idx := Z.to_nat (Z.land i mask) in
      match table !! idx with
      | Some None => Some idx
      | _ => free_object_slot fuel' table mask (i * 5 + perturb + 1)%Z
               (Z.shiftr perturb 5)
      end
  end.

Definition insert_clean_object (table : list ObjectSlot) (h : Z) (key : Z)
  : list ObjectSlot :=
  let size := List.length table in
  let mask := (Z.of_nat size - 1)%Z in
  match free_object_slot (size + 64) table mask (Z.land h mask) h with
  | Some idx => <[idx := Some (h, key)]> table
  | None => table
  end.

Definition occupied_objects (table : list ObjectSlot) : list (Z * Z) :=
  omap id table.

Definition dictresize_objects (table : list ObjectSlot) (minused : nat)
  : list ObjectSlot :=
  let newsize := grow (S minused) 8 minused in
  fold_left (fun t e => insert_clean_object t (fst e) (snd e))
    (occupied_objects table) (replicate newsize None).

Definition setitem_new_object (bits : Z) (table : list ObjectSlot) (key : Z)
  : list ObjectSlot :=
  let table' := insert_clean_object table (pointer_hash bits key) key in
  let used := List.length (occupied_objects table') in
  if (2 * List.length table' <=? 3 * used)%nat
  then dictresize_objects table'
         ((if (50000 <? Z.of_nat used)%Z then 2 else 4) * used)
  else table'.

Definition object_order (bits : Z) (ids : list Z) : list Z :=
  map snd (occupied_objects
             (fold_left (setitem_new_object bits) ids (replicate 8 None))).

(** [long] is 32 bits wide on Windows builds and 64 elsewhere; pointers
    are taken to be as wide. *)
Definition long_bits (platform : string) : Z :=
  if String.eqb platform "win32" then 32%Z else 64%Z.

Definition runtime (platform : string) : PyRuntime := {|
  sys_platform := platform;
  struct_calcsize := calcsize;
  struct_unpack := unpack;
  dict_iter_order := iter_order (long_bits platform);
  object_iter_order := object_order (long_bits platform)
|}.

End CPython27.

(** ** Descriptors: [class LangInfo] *)

(** An entry of [filename_patterns]: a string ([isinstance(pat,
    basestring)]) or a compiled pattern. *)
Inductive FilenamePattern :=
| FnExact (s : string)
| FnRegex (r : Regex).

(** An entry of [magic_numbers]: a tuple, expected to be [(start, format,
    pattern)] but of whatever arity the subclass wrote. *)
Definition MagicNumber := list PyVal.

(** An entry of [doctypes]: a tuple, expected to be [(flavour, name,
    public_id, system_id)], each item a string or [None]. *)
Definition Doctype := list (option string).

(** The class attributes of a [LangInfo] subclass. [None] is Python's
    [None], the default of every core attribute but [name]; [extra_attrs]
    holds what a subclass defines beyond the core ones. *)
Record LangInfo := {
  name : string;
  exts : option (list string);
  filename_patterns : option (list FilenamePattern);
  magic_numbers : option (list MagicNumber);
  doctypes : option (list Doctype);
  emacs_modes : option (list string);
  default_encoding : option string;
  encoding_decl_pattern : option Regex;
  conforms_to_bases : option (list string);
  extra_attrs : list (string * PyVal)
}.

(** What [getattr] can return for a data attribute. *)
Inductive AttrVal :=
| AStr (s : string)
| AStrs (l : list string)
| ARegex (r : Regex)
| APatterns (l : list FilenamePattern)
| AMagic (l : list MagicNumber)
| ADoctypes (l : list Doctype)
| AVal (v : PyVal).

(** [class TextLangInfo(LangInfo)], the one descriptor the module defines. *)
Definition TextLangInfo : LangInfo := {|
  name := "Text";
  exts := Some [".txt"; ".text"];
  filename_patterns :=
    Some [FnExact "README"; FnExact "COPYING"; FnExact "LICENSE";
          FnExact "MANIFEST"];
  magic_numbers := None;
  doctypes := None;
  emacs_modes := None;
  default_encoding := None;
  encoding_decl_pattern := None;
  conforms_to_bases := None;
  extra_attrs := []
|}.

(** ** Dictionaries whose iteration order matters

    [_langinfo_from_norm_lang] is iterated ([.values()]), so it is kept as
    an association list with one entry per key, in order of first
    insertion; the runtime turns that into the iteration order. The other
    dictionaries of the module are only read by key and are [gmap]s. *)

Section PyDict.
Context {V : Type}.

Definition PyDict := list (string * V).

(** [d.get(k)]; [k in d] holds when it is not [None]. *)
Fixpoint dict_get (d : PyDict) (k : string) : option V :=
  match d with
  | [] => None
  | (k', v) :: rest => if String.eqb k k' then Some v else dict_get rest k
  end.

(** [d[k] = v]: an existing key keeps its place. *)
Fixpoint dict_set (d : PyDict) (k : string) (v : V) : PyDict :=
  match d with
  | [] => [(k, v)]
  | (k', v') :: rest =>
      if String.eqb k k' then (k', v) :: rest
      else (k', v') :: dict_set rest k v
  end.

(** [d.values()]. *)
Definition dict_values `{PyRuntime} (d : PyDict) : list V :=
  omap (dict_get d) (dict_iter_order (map fst d)).

End PyDict.
Arguments PyDict V : clear implicits.

(** ** [class Database] *)

(** What the module reports while it works: [log.warn], [log.debug] and
    [warnings.warn] calls, with the values they format. *)
Inductive Event :=
| LogWarnExtNoDot (ext lang : string)
| LogDebugExtConflict (ext lang previous : string)
| LogDebugInvalidDoctype (lang : string) (dt : Doctype)
| WarnStructFormat (lang : string) (format : string).

(** The seven attributes [_build_tables] assigns. [__init__] sets them all
    to [None] and nothing else assigns any of them, so they are absent or
    present together. *)
Record Tables := {
  _langinfo_from_ext : gmap string LangInfo;
  _langinfo_from_filename : gmap string LangInfo;
  _langinfo_from_filename_re : list (Regex * LangInfo);
  _magic_table : list (MagicNumber * LangInfo);
  _li_from_doctype_public_id : gmap string LangInfo;
  _li_from_doctype_system_id : gmap string LangInfo;
  _li_from_emacs_mode : gmap string LangInfo
}.

Record Database := {
  _langinfo_from_norm_lang : PyDict LangInfo;
  _tables : option Tables
}.

(** A call that may build the tables: its outcome, the database it
    leaves and what it reported. *)
Record Outcome (A : Type) := {
  result : Res A;
  state : Database;
  events : list Event
}.
Arguments result {A} _.
Arguments state {A} _.
Arguments events {A} _.

Section Langinfo.
Context `{PyRuntime}.

(** [Database._norm_lang_from_lang]. *)
Definition _norm_lang_from_lang (lang : string) : string := lower lang.

(** [Database.langinfo_from_lang]. *)
Definition langinfo_from_lang (db : Database) (lang : string) : Res LangInfo :=
  let norm_lang := _norm_lang_from_lang lang in
  match dict_get (_langinfo_from_norm_lang db) norm_lang with
  | None => Raise LangInfoError
  | Some li => Ok li
  end.

(** [Database.langinfos]. *)
Definition langinfos (db : Database) : list LangInfo :=
  dict_values (_langinfo_from_norm_lang db).

(** *** The conformance walk *)

(** The loop over [conforms_to_bases] in [LangInfo.conforms_to]: a base
    that does not resolve is passed over, the first base that conforms
    ends the loop, an exception other than [LangInfoError] propagates. *)
Fixpoint conforms_to_loop (check : LangInfo -> Res bool) (db : Database)
    (bases : list string) : Res bool :=
  match bases with
  | [] => Ok false
  | base :: rest =>
      match langinfo_from_lang db base with
      | Raise LangInfoError => conforms_to_loop check db rest
      | Raise e => Raise e
      | Ok base_li =>
          match check base_li with
          | Raise e => Raise e
          | Ok true => Ok true
          | Ok false => conforms_to_loop check db rest
          end
      end
  end.

(** [LangInfo.conforms_to]. [depth] is the number of nested calls the
    interpreter still allows: a call made with none left raises
    [RuntimeError] (maximum recursion depth exceeded), which the
    [except LangInfoError] of the callers does not catch. *)
Fixpoint conforms_to (depth : nat) (db : Database) (self : LangInfo)
    (lang : string) : Res bool :=
  match depth with
  | O => Raise RuntimeError
  | S depth' =>
      if String.eqb lang (name self) then Ok true
      else
        match conforms_to_bases self with
        | Some ((_ :: _) as bases) =>
            if existsb (String.eqb lang) bases then Ok true
            else conforms_to_loop
                   (fun base_li => conforms_to depth' db base_li lang)
                   db bases
        | _ => Ok false
        end
  end.

(** [LangInfo.is_text]. *)
Definition is_text (depth : nat) (db : Database) (self : LangInfo) : Res bool :=
  conforms_to depth db self "Text".

(** [getattr(self, attr)] on the data attributes: [None] when the
    attribute does not exist ([hasattr] is false), [Some None] when its
    value is Python's [None]. Methods, the [is_text] property and the
    attributes every object has are left out of the attribute space. *)
Definition getattr (self : LangInfo) (attr : string)
  : option (option AttrVal) :=
  if String.eqb attr "name" then Some (Some (AStr (name self)))
  else if String.eqb attr "exts" then Some (AStrs <$> exts self)
  else if String.eqb attr "filename_patterns"
    then Some (APatterns <$> filename_patterns self)
  else if String.eqb attr "magic_numbers"
    then Some (AMagic <$> magic_numbers self)
  else if String.eqb attr "doctypes" then Some (ADoctypes <$> doctypes self)
  else if String.eqb attr "emacs_modes" then Some (AStrs <$> emacs_modes self)
  else if String.eqb attr "default_encoding"
    then Some (AStr <$> default_encoding self)
  else if String.eqb attr "encoding_decl_pattern"
    then Some (ARegex <$> encoding_decl_pattern self)
  else if String.eqb attr "conforms_to_bases"
    then Some (AStrs <$> conforms_to_bases self)
  else
    match dict_get (extra_attrs self) attr with
    | None => None
    | Some PNone => Some None
    | Some v => Some (Some (AVal v))
    end.

(** The loop over the bases in [LangInfo.conformant_attr]. *)
Fixpoint conformant_attr_loop (inherit : LangInfo -> Res (option AttrVal))
    (db : Database) (bases : list string) : Res (option AttrVal) :=
  match bases with
  | [] => Ok None
  | base :: rest =>
      match langinfo_from_lang db base with
      | Raise LangInfoError => conformant_attr_loop inherit db rest
      | Raise e => Raise e
      | Ok base_li =>
          match inherit base_li with
          | Raise e => Raise e
          | Ok (Some val) => Ok (Some val)
          | Ok None => conformant_attr_loop inherit db rest
          end
      end
  end.

(** [LangInfo.conformant_attr]. *)
Fixpoint conformant_attr (depth : nat) (db : Database) (self : LangInfo)
    (attr : string) : Res (option AttrVal) :=
  match depth with
  | O => Raise RuntimeError
  | S depth' =>
      match getattr self attr with
      | Some (Some val) => Ok (Some val)
      | _ =>
          conformant_attr_loop
            (fun base_li => conformant_attr depth' db base_li attr)
            db (default [] (conforms_to_bases self))
      end
  end.

End Langinfo.

(** *** Building the tables *)

Section Tables.
Context `{PyRuntime}.

Definition empty_tables : Tables := {|
  _langinfo_from_ext := ∅;
  _langinfo_from_filename := ∅;
  _langinfo_from_filename_re := [];
  _magic_table := [];
  _li_from_doctype_public_id := ∅;
  _li_from_doctype_system_id := ∅;
  _li_from_emacs_mode := ∅
|}.

(** [sys.platform in ("win32", "darwin")]: case-insensitive filesystems. *)
Definition case_insensitive_platform : bool :=
  String.eqb sys_platform "win32" || String.eqb sys_platform "darwin".

(** The tables under construction and what was logged so far. *)
Definition Build := (Tables * list Event)%type.

(** What a [for] loop over an attribute runs through: nothing when the
    attribute is falsy ([None] or empty). *)
Definition items {A} (attr : option (list A)) : list A := default [] attr.

(** [self._langinfo_from_filename_re[pat] = li]: compiled patterns are
    keyed by identity. The dictionary is kept in order of first
    insertion, one entry per pattern object. *)
Fixpoint re_dict_set (d : list (Regex * LangInfo)) (pat : Regex)
    (li : LangInfo) : list (Regex * LangInfo) :=
  match d with
  | [] => [(pat, li)]
  | (pat', li') :: rest =>
      if Z.eqb (re_id pat) (re_id pat') then (pat', li) :: rest
      else (pat', li') :: re_dict_set rest pat li
  end.

(** The entry of the pattern object with the given id. *)
Fixpoint re_dict_entry (d : list (Regex * LangInfo)) (id : Z)
  : option (Regex * LangInfo) :=
  match d with
  | [] => None
  | (pat, li) :: rest =>
      if Z.eqb id (re_id pat) then Some (pat, li) else re_dict_entry rest id
  end.

(** [self._langinfo_from_filename_re.items()]. *)
Definition re_dict_items (d : list (Regex * LangInfo))
  : list (Regex * LangInfo) :=
  omap (re_dict_entry d) (object_iter_order (map (fun e => re_id (fst e)) d)).

Definition add_ext (li : LangInfo) (b : Build) (ext : string) : Build :=
  let '(t, log) := b in
  let log :=
    if startswith "." ext then log
    else log ++ [LogWarnExtNoDot ext (name li)] in
  let ext := if case_insensitive_platform then lower ext else ext in
  let log :=
    match _langinfo_from_ext t !! ext with
    | Some previous => log ++ [LogDebugExtConflict ext (name li) (name previous)]
    | None => log
    end in
  ({| _langinfo_from_ext := <[ext := li]> (_langinfo_from_ext t);
      _langinfo_from_filename := _langinfo_from_filename t;
      _langinfo_from_filename_re := _langinfo_from_filename_re t;
      _magic_table := _magic_table t;
      _li_from_doctype_public_id := _li_from_doctype_public_id t;
      _li_from_doctype_system_id := _li_from_doctype_system_id t;
      _li_from_emacs_mode := _li_from_emacs_mode t |}, log).

Definition add_filename_pattern (li : LangInfo) (b : Build)
    (pat : FilenamePattern) : Build :=
  let '(t, log) := b in
  ({| _langinfo_from_ext := _langinfo_from_ext t;
      _langinfo_from_filename :=
        match pat with
        | FnExact s => <[s := li]> (_langinfo_from_filename t)
        | FnRegex _ => _langinfo_from_filename t
        end;
      _langinfo_from_filename_re :=
        match pat with
        | FnExact _ => _langinfo_from_filename_re t
        | FnRegex r => re_dict_set (_langinfo_from_filename_re t) r li
        end;
      _magic_table := _magic_table t;
      _li_from_doctype_public_id := _li_from_doctype_public_id t;
      _li_from_doctype_system_id := _li_from_doctype_system_id t;
      _li_from_emacs_mode := _li_from_emacs_mode t |}, log).

Definition add_magic_number (li : LangInfo) (b : Build) (mn : MagicNumber)
  : Build :=
  let '(t, log) := b in
  ({| _langinfo_from_ext := _langinfo_from_ext t;
      _langinfo_from_filename := _langinfo_from_filename t;
      _langinfo_from_filename_re := _langinfo_from_filename_re t;
      _magic_table := _magic_table t ++ [(mn, li)];
      _li_from_doctype_public_id := _li_from_doctype_public_id t;
      _li_from_doctype_system_id := _li_from_doctype_system_id t;
      _li_from_emacs_mode := _li_from_emacs_mode t |}, log).

(** [if public_id:] : a non-empty string. *)
Definition truthy_id (id : option string) : option string :=
  match id with
  | Some EmptyString => None
  | other => other
  end.

Definition add_doctype (li : LangInfo) (b : Build) (dt : Doctype) : Build :=
  let '(t, log) := b in
  match dt with
  | [flavour; dt_name; public_id; system_id] =>
      ({| _langinfo_from_ext := _langinfo_from_ext t;
          _langinfo_from_filename := _langinfo_from_filename t;
          _langinfo_from_filename_re := _langinfo_from_filename_re t;
          _magic_table := _magic_table t;
          _li_from_doctype_public_id :=
            match truthy_id public_id with
            | Some id => <[id := li]> (_li_from_doctype_public_id t)
            | None => _li_from_doctype_public_id t
            end;
          _li_from_doctype_system_id :=
            match truthy_id system_id with
            | Some id => <[id := li]> (_li_from_doctype_system_id t)
            | None => _li_from_doctype_system_id t
            end;
          _li_from_emacs_mode := _li_from_emacs_mode t |}, log)
  | _ => (t, log ++ [LogDebugInvalidDoctype (name li) dt])
  end.

Definition add_emacs_mode (li : LangInfo) (b : Build) (em : string) : Build :=
  let '(t, log) := b in
  ({| _langinfo_from_ext := _langinfo_from_ext t;
      _langinfo_from_filename := _langinfo_from_filename t;
      _langinfo_from_filename_re := _langinfo_from_filename_re t;
      _magic_table := _magic_table t;
      _li_from_doctype_public_id := _li_from_doctype_public_id t;
      _li_from_doctype_system_id := _li_from_doctype_system_id t;
      _li_from_emacs_mode := <[em := li]> (_li_from_emacs_mode t) |}, log).

(** The body of the loop over the descriptors in [_build_tables]. *)
Definition index_langinfo (b : Build) (li : LangInfo) : Build :=
  let b := fold_left (add_ext li) (items (exts li)) b in
  let b := fold_left (add_filename_pattern li) (items (filename_patterns li)) b in
  let b := fold_left (add_magic_number li) (items (magic_numbers li)) b in
  let b := fold_left (add_doctype li) (items (doctypes li)) b in
  fold_left (add_emacs_mode li) (items (emacs_modes li)) b.

(** [Database._build_tables]: the fresh tables and the log. *)
Definition _build_tables (db : Database) : Build :=
  fold_left index_langinfo (dict_values (_langinfo_from_norm_lang db))
    (empty_tables, []).

(** The guard every lookup starts with: [if self._... is None:
    self._build_tables()]. *)
Definition ensure_tables (db : Database) : Tables * Database * list Event :=
  match _tables db with
  | Some t => (t, db, [])
  | None =>
      let '(t, log) := _build_tables db in
      (t, {| _langinfo_from_norm_lang := _langinfo_from_norm_lang db;
             _tables := Some t |}, log)
  end.

(** *** The lookups *)

(** [Database.langinfo_from_emacs_mode]. *)
Definition langinfo_from_emacs_mode (db : Database) (emacs_mode : string)
  : Outcome (option LangInfo) :=
  let '(t, db, log) := ensure_tables db in
  {| result :=
       match _li_from_emacs_mode t !! emacs_mode with
       | Some li => Ok (Some li)
       | None =>
           let norm_lang := _norm_lang_from_lang emacs_mode in
           Ok (dict_get (_langinfo_from_norm_lang db) norm_lang)
       end;
     state := db; events := log |}.

(** [Database.langinfo_from_ext]. *)
Definition langinfo_from_ext (db : Database) (ext : string)
  : Outcome (option LangInfo) :=
  let '(t, db, log) := ensure_tables db in
  let ext := if case_insensitive_platform then lower ext else ext in
  {| result := Ok (_langinfo_from_ext t !! ext); state := db; events := log |}.

(** The loop over [_langinfo_from_filename_re.items()]. *)
Fixpoint first_filename_re (res : list (Regex * LangInfo)) (filename : string)
  : option LangInfo :=
  match res with
  | [] => None
  | (regex, li) :: rest =>
      if re_search regex filename 0 then Some li
      else first_filename_re rest filename
  end.

(** [Database.langinfo_from_filename]. *)
Definition langinfo_from_filename (db : Database) (filename : string)
  : Outcome (option LangInfo) :=
  let '(t, db, log) := ensure_tables db in
  {| result :=
       match _langinfo_from_filename t !! filename with
       | Some li => Ok (Some li)
       | None =>
           Ok (first_filename_re
                 (re_dict_items (_langinfo_from_filename_re t)) filename)
       end;
     state := db; events := log |}.

(** [Database.langinfo_from_doctype]. *)
Definition langinfo_from_doctype (db : Database)
    (public_id system_id : option string) : Outcome (option LangInfo) :=
  let '(t, db, log) := ensure_tables db in
  let by_system :=
    match system_id with
    | Some sid => _li_from_doctype_system_id t !! sid
    | None => None
    end in
  {| result :=
       match public_id with
       | Some pid =>
           match _li_from_doctype_public_id t !! pid with
           | Some li => Ok (Some li)
           | None => Ok by_system
           end
       | None => Ok by_system
       end;
     state := db; events := log |}.

End Tables.

(** *** Magic numbers *)

(** What one pass of the loop in [langinfo_from_magic] ends with. *)
Inductive Step :=
| Hit           (* [return li] *)
| Miss          (* on to the next entry *)
| Fail (e : Exn).

(** One pass: how it ends, the local variable [length] afterwards
    (unbound until a struct format was sized) and the warnings issued. *)
Record Probe := {
  step : Step;
  length_after : option Z;
  warned : list Event
}.

Section Magic.
Context `{PyRuntime}.

Definition quiet (s : Step) (length : option Z) : Probe :=
  {| step := s; length_after := length; warned := [] |}.

(** The branch for a struct format. *)
Definition probe_struct (head_bytes : string) (li : LangInfo)
    (start format pattern : PyVal) (length : option Z) : Probe :=
  match format with
  | PStr fmt =>
      let '(length, warned) :=
        match struct_calcsize fmt with
        | Some n => (Some n, [])
        | None => (length, [WarnStructFormat (name li) fmt])
        end in
      let s :=
        match length with
        | None => Fail UnboundLocalError
        | Some len =>
            match as_int start with
            | None => Fail TypeError
            | Some start =>
                let bytes := py_slice head_bytes start (start + len) in
                if (Z.of_nat (String.length bytes) =? len)%Z then
                  match struct_unpack fmt bytes with
                  | None => Fail StructError
                  | Some [] => Fail IndexError
                  | Some (v :: _) => if py_eq v pattern then Hit else Miss
                  end
                else Miss
            end
        end in
      {| step := s; length_after := length; warned := warned |}
  | _ => quiet (Fail TypeError) length
  end.

(** The body of the loop in [langinfo_from_magic]. *)
Definition probe (head_bytes : string) (shebang_only : bool)
    (li : LangInfo) (magic_number : MagicNumber) (length : option Z) : Probe :=
  match magic_number with
  | [start; format; pattern] =>
      if shebang_only && negb (py_eq format (PStr "regex")) then
        quiet Miss length
      else if py_eq format (PStr "string") then
        match py_len pattern, as_int start with
        | Some n, Some start =>
            if py_eq (PStr (py_slice head_bytes start (start + n))) pattern
            then quiet Hit length else quiet Miss length
        | _, _ => quiet (Fail TypeError) length
        end
      else if py_eq format (PStr "regex") then
        match pattern with
        | PRegex r =>
            match as_int start with
            | Some start =>
                if re_search r head_bytes start
                then quiet Hit length else quiet Miss length
            | None => quiet (Fail TypeError) length
            end
        | _ => quiet (Fail AttributeError) length
        end
      else probe_struct head_bytes li start format pattern length
  | _ => quiet Miss length   (* Silently drop bogus magic number decls. *)
  end.

(** The loop of [langinfo_from_magic] over the magic table: the result
    and the warnings, in order. *)
Fixpoint magic_scan (head_bytes : string) (shebang_only : bool)
    (table : list (MagicNumber * LangInfo)) (length : option Z)
  : Res (option LangInfo) * list Event :=
  match table with
  | [] => (Ok None, [])
  | (magic_number, li) :: rest =>
      let p := probe head_bytes shebang_only li magic_number length in
      match step p with
      | Hit => (Ok (Some li), warned p)
      | Fail e => (Raise e, warned p)
      | Miss =>
          let '(r, w) := magic_scan head_bytes shebang_only rest (length_after p) in
          (r, warned p ++ w)
      end
  end.

(** [Database.langinfo_from_magic]. *)
Definition langinfo_from_magic (db : Database) (head_bytes : string)
    (shebang_only : bool) : Outcome (option LangInfo) :=
  let '(t, db, log) := ensure_tables db in
  let '(r, w) := magic_scan head_bytes shebang_only (_magic_table t) None in
  {| result := r; state := db; events := log ++ w |}.

(** *** Assembling the database *)

(** [self._langinfo_from_norm_lang[norm_lang] = g(self)], the one
    statement that adds a descriptor. *)
Definition register (db : Database) (li : LangInfo) : Database :=
  let norm_lang := _norm_lang_from_lang (name li) in
  {| _langinfo_from_norm_lang := dict_set (_langinfo_from_norm_lang db) norm_lang li;
     _tables := _tables db |}.

(** [Database._load]: the [LangInfo] subclasses of the module itself. *)
Definition _load (db : Database) : Database := register db TextLangInfo.

(** A [langinfo_*.py] file: its import fails, or it defines classes. *)
Definition Unit := option (list LangInfo).

(** [Database._load_dir], on the units found in the directory: a unit
    whose import fails is skipped (with a line in the log). *)
Definition _load_dir (db : Database) (units : list Unit) : Database :=
  fold_left
    (fun db unit =>
       match unit with
       | None => db
       | Some classes => fold_left register classes db
       end)
    units db.

(** [Database.__init__]: [builtin_dir] is the directory of the module,
    [dirs] the ones the caller names. *)
Definition Database_init (builtin_dir : list Unit) (dirs : list (list Unit))
  : Database :=
  fold_left _load_dir (builtin_dir :: dirs)
    (_load {| _langinfo_from_norm_lang := []; _tables := None |}).

End Magic.

(** ** Declarative readings, for comparison with the code *)

Section Readings.
Context `{PyRuntime}.

(** The declared bases of a descriptor. *)
Definition bases_of (li : LangInfo) : list string :=
  default [] (conforms_to_bases li).

(** Conformance as a relation: a descriptor conforms to its own name, to
    each base it names, and to whatever a base that resolves conforms
    to. *)
Inductive conforms_spec (db : Database) : LangInfo -> string -> Prop :=
| conforms_self li : conforms_spec db li (name li)
| conforms_direct li lang :
    In lang (bases_of li) -> conforms_spec db li lang
| conforms_via li base base_li lang :
    In base (bases_of li) ->
    langinfo_from_lang db base = Ok base_li ->
    conforms_spec db base_li lang ->
    conforms_spec db li lang.

(** The walk from [li] along the bases that resolve fits in [n] nested
    calls: no chain of [n] such bases starts at [li]. On a finite
    database this holds for some [n] exactly when no cycle can be
    reached from [li]. *)
Fixpoint walk_fits (n : nat) (db : Database) (li : LangInfo) : bool :=
  match n with
  | O => false
  | S n' =>
      forallb
        (fun base =>
           match langinfo_from_lang db base with
           | Ok base_li => walk_fits n' db base_li
           | Raise _ => true
           end)
        (bases_of li)
  end.

(** A magic-table entry that matches the window, whatever [length] the
    earlier entries left behind; and one that is passed over. *)
Definition hits (head_bytes : string) (shebang_only : bool)
    (entry : MagicNumber * LangInfo) : Prop :=
  forall length,
    step (probe head_bytes shebang_only (snd entry) (fst entry) length) = Hit.

Definition misses (head_bytes : string) (shebang_only : bool)
    (entry : MagicNumber * LangInfo) : Prop :=
  forall length,
    step (probe head_bytes shebang_only (snd entry) (fst entry) length) = Miss.

(** The magic table read off the descriptors: each one's magic numbers,
    in the order written, descriptor after descriptor. *)
Definition flattened_magic (lis : list LangInfo) : list (MagicNumber * LangInfo) :=
  flat_map (fun li => map (fun mn => (mn, li)) (items (magic_numbers li))) lis.

(** A magic-number tuple of the expected arity. *)
Definition well_formed_arity (entry : MagicNumber * LangInfo) : bool :=
  Nat.eqb (List.length (fst entry)) 3.

(** The tables a lookup works with: the ones already built, or the ones
    the lookup builds first. *)
Definition tables_in_use (db : Database) : Tables :=
  fst (fst (ensure_tables db)).


(** The width a rule needs after its offset: the length of the pattern
    for a string rule, the size of the layout for a struct rule; a
    regex rule names none. *)
Definition required_width (format : string) (pattern : PyVal) : option Z :=
  if String.eqb format "string" then py_len pattern
  else if String.eqb format "regex" then None
  else struct_calcsize format.

(** No pattern of the table matches the file name. *)
Definition no_filename_re (res : list (Regex * LangInfo)) (filename : string)
  : Prop :=
  Forall (fun entry => re_search (fst entry) filename 0 = false) res.

End Readings.

(** ** Sample descriptors and databases *)

Module Samples.

(** A descriptor with a name and nothing else. *)
Definition bare (n : string) : LangInfo := {|
  name := n; exts := None; filename_patterns := None;
  magic_numbers := None; doctypes := None; emacs_modes := None;
  default_encoding := None; encoding_decl_pattern := None;
  conforms_to_bases := None; extra_attrs := []
|}.

Definition conforming (n : string) (bases : list string) : LangInfo := {|
  name := n; exts := None; filename_patterns := None;
  magic_numbers := None; doctypes := None; emacs_modes := None;
  default_encoding := None; encoding_decl_pattern := None;
  conforms_to_bases := Some bases; extra_attrs := []
|}.

Definition with_exts (n : string) (es : list string) : LangInfo := {|
  name := n; exts := Some es; filename_patterns := None;
  magic_numbers := None; doctypes := None; emacs_modes := None;
  default_encoding := None; encoding_decl_pattern := None;
  conforms_to_bases := None; extra_attrs := []
|}.

Definition with_magic (n : string) (mns : list MagicNumber) : LangInfo := {|
  name := n; exts := None; filename_patterns := None;
  magic_numbers := Some mns; doctypes := None; emacs_modes := None;
  default_encoding := None; encoding_decl_pattern := None;
  conforms_to_bases := None; extra_attrs := []
|}.

Definition with_doctype (n : string) (dt : Doctype) : LangInfo := {|
  name := n; exts := None; filename_patterns := None;
  magic_numbers := None; doctypes := Some [dt]; emacs_modes := None;
  default_encoding := None; encoding_decl_pattern := None;
  conforms_to_bases := None; extra_attrs := []
|}.

(** The database of an installation whose only extension file defines
    [classes], in that order. *)
Definition database_of (classes : list LangInfo) : Database :=
  Database_init [Some classes] [].

(** A descriptor that names itself as a base. *)
Definition Loop : LangInfo := conforming "Loop" ["Loop"].
Definition loop_db : Database := database_of [Loop].

(** Two descriptors that name each other. *)
Definition Ping : LangInfo := conforming "Ping" ["Pong"].
Definition Pong : LangInfo := conforming "Pong" ["Ping"].
Definition ping_pong_db : Database := database_of [Ping; Pong].

(** A three-level chain, and one whose top also names [Loop] first. *)
Definition RDF : LangInfo := conforming "RDF" ["XML"].
Definition XML : LangInfo := conforming "XML" ["Text"].
Definition chain_db : Database := database_of [RDF; XML].

Definition Detour : LangInfo := conforming "Detour" ["Loop"; "XML"].
Definition detour_db : Database := database_of [Detour; Loop; XML].

(** Two descriptors with the same shebang rule, [b] registered first. *)
Definition shebang : MagicNumber := [PInt 0; PStr "string"; PStr "#!"].
Definition lang_b : LangInfo := with_magic "b" [shebang].
Definition lang_a : LangInfo := with_magic "a" [shebang].
Definition ba_db : Database :=
  register (register {| _langinfo_from_norm_lang := []; _tables := None |}
              lang_b) lang_a.

(** A pair tuple before a valid rule, and a struct format [struct]
    rejects before a valid rule. *)
Definition Pair : LangInfo :=
  with_magic "Pair" [[PInt 0; PStr "string"]; shebang].
Definition pair_db : Database :=
  register {| _langinfo_from_norm_lang := []; _tables := None |} Pair.

Definition BadStruct : LangInfo :=
  with_magic "BadStruct" [[PInt 0; PStr "zz"; PInt 1]; shebang].
Definition bad_struct_db : Database :=
  register {| _langinfo_from_norm_lang := []; _tables := None |} BadStruct.

(** An empty pattern expected at offset 5. *)
Definition Empty : LangInfo :=
  with_magic "Empty" [[PInt 5; PStr "string"; PStr ""]].
Definition empty_db : Database :=
  register {| _langinfo_from_norm_lang := []; _tables := None |} Empty.

(** A long pattern and a four-byte layout after it. *)
Definition gif : MagicNumber := [PInt 0; PStr "string"; PStr "GIF89a"].
Definition class_file : MagicNumber := [PInt 0; PStr ">L"; PInt 3405691582].

(** The doctype scenario: [X] claims public id [P1], [Y] system id [S1]. *)
Definition X : LangInfo := with_doctype "X" [None; None; Some "P1"; None].
Definition Y : LangInfo := with_doctype "Y" [None; None; None; Some "S1"].
Definition xy_db : Database := database_of [X; Y].


(** A descriptor in the style of the extension files: its own extension
    and a shebang pattern, everything else inherited from [Text]. *)
Definition shebang_re : Regex := {|
  re_id := 140072846155216;
  re_source := "#!";
  re_search := fun s pos =>
    match String.index (Z.to_nat (Z.min (Z.max pos 0)
                                    (Z.of_nat (String.length s)))) "#!" s with
    | Some _ => true
    | None => false
    end
|}.

Definition Widget : LangInfo := {|
  name := "Widget"; exts := Some [".wdg"]; filename_patterns := None;
  magic_numbers := Some [[PInt 0; PStr "regex"; PRegex shebang_re]; class_file];
  doctypes := None; emacs_modes := Some ["widget-mode"];
  default_encoding := None; encoding_decl_pattern := None;
  conforms_to_bases := Some ["Text"]; extra_attrs := []
|}.
Definition widget_db : Database := database_of [Widget].

Definition cafebabe : string :=
  String (ascii_of_nat 202) (String (ascii_of_nat 254)
    (String (ascii_of_nat 186) (String (ascii_of_nat 190) "..."))).

(** The database of the module alone. *)
Definition text_db : Database := Database_init [] [].

Definition linux : PyRuntime := CPython27.runtime "linux2".

End Samples.

(** ** Classes without a name, and the module-level API

    [register], [_load_dir] and [Database_init] above run on classes that
    set [name]. [LangInfo] itself leaves [name = None], and a subclass
    that does not set it is still picked up by [_load_dir]. *)

(** A class [_load_dir] finds in a unit: a subclass of [LangInfo] with its
    [name], or one that leaves [name] at [None]. *)
Inductive FoundClass :=
| Named (li : LangInfo)
| Nameless.

(** A [langinfo_*.py] file as [_load_dir] finds it. *)
Definition FoundUnit := option (list FoundClass).

Definition named (c : FoundClass) : option LangInfo :=
  match c with
  | Named li => Some li
  | Nameless => None
  end.

(** The two statements that register a class: [attr.name.lower()] raises
    [AttributeError] on [None], and no [try] encloses it. *)
Definition register_found (db : Database) (c : FoundClass) : Res Database :=
  match c with
  | Named li => Ok (register db li)
  | Nameless => Raise AttributeError
  end.

(** The loop over [dir(module)]. *)
Fixpoint register_all (db : Database) (classes : list FoundClass)
  : Res Database :=
  match classes with
  | [] => Ok db
  | c :: rest =>
      match register_found db c with
      | Ok db' => register_all db' rest
      | Raise e => Raise e
      end
  end.

(** [Database._load_dir] on units as found: an import that fails is
    skipped, an exception while registering leaves the method. *)
Fixpoint _load_dir_found (db : Database) (units : list FoundUnit)
  : Res Database :=
  match units with
  | [] => Ok db
  | None :: rest => _load_dir_found db rest
  | Some classes :: rest =>
      match register_all db classes with
      | Ok db' => _load_dir_found db' rest
      | Raise e => Raise e
      end
  end.

(** The loop over [dirs] in [Database.__init__]. *)
Fixpoint load_dirs_found (db : Database) (dirs : list (list FoundUnit))
  : Res Database :=
  match dirs with
  | [] => Ok db
  | units :: rest =>
      match _load_dir_found db units with
      | Ok db' => load_dirs_found db' rest
      | Raise e => Raise e
      end
  end.

(** [Database(dirs)]: the constructor on directories as found. *)
Definition Database_new (builtin_dir : list FoundUnit)
    (dirs : list (list FoundUnit)) : Res Database :=
  load_dirs_found
    (_load {| _langinfo_from_norm_lang := []; _tables := None |})
    (builtin_dir :: dirs).

(** [_get_default_database], on the global [_g_default_database]: the
    database, or the exception of the constructor, and the global
    afterwards. *)
Definition _get_default_database (builtin_dir : list FoundUnit)
    (_g_default_database : option Database) : Res Database * option Database :=
  match _g_default_database with
  | None =>
      match Database_new builtin_dir [] with
      | Ok db => (Ok db, Some db)
      | Raise e => (Raise e, None)
      end
  | Some db => (Ok db, Some db)
  end.

(** The module-level [langinfo_from_lang]. *)
Definition default_langinfo_from_lang (builtin_dir : list FoundUnit)
    (_g_default_database : option Database) (lang : string)
  : Res LangInfo * option Database :=
  match _get_default_database builtin_dir _g_default_database with
  | (Ok db, g) => (langinfo_from_lang db lang, g)
  | (Raise e, g) => (Raise e, g)
  end.

(** The units with the classes that carry a name. *)
Definition named_unit (unit : FoundUnit) : Unit :=
  match unit with
  | Some classes => Some (omap named classes)
  | None => None
  end.

(** Every class of every unit that imports sets its name. *)
Definition all_named (dirs : list (list FoundUnit)) : bool :=
  forallb
    (forallb (fun unit : FoundUnit =>
                match unit with
                | Some classes =>
                    forallb (fun c => match c with
                                      | Named _ => true
                                      | Nameless => false
                                      end) classes
                | None => true
                end))
    dirs.

(** A class the constructor meets: [TextLangInfo], or a named class of a
    unit that imports. *)
Definition found_class (builtin_dir : list FoundUnit)
    (dirs : list (list FoundUnit)) (li : LangInfo) : Prop :=
  li = TextLangInfo
  \/ exists units classes,
       In units (builtin_dir :: dirs) /\ In (Some classes) units
       /\ In (Named li) classes.

(** ** Readings of the tables *)

Section TableReadings.
Context `{PyRuntime}.

(** A key and the descriptor that asks for it. *)
Definition Claim := (string * LangInfo)%type.

(** The descriptor of the last claim on [k], if any. *)
Fixpoint last_claim (k : string) (claims : list Claim) : option LangInfo :=
  match claims with
  | [] => None
  | (k', li) :: rest =>
      match last_claim k rest with
      | Some later => Some later
      | None => if String.eqb k' k then Some li else None
      end
  end.

(** An extension as the platform keys it. *)
Definition platform_case (ext : string) : string :=
  if case_insensitive_platform then lower ext else ext.

(** What one entry of an attribute claims in its table. *)
Definition ext_claim (li : LangInfo) (ext : string) : list Claim :=
  [(platform_case ext, li)].

Definition filename_claim (li : LangInfo) (pat : FilenamePattern) : list Claim :=
  match pat with
  | FnExact s => [(s, li)]
  | FnRegex _ => []
  end.

Definition public_id_claim (li : LangInfo) (dt : Doctype) : list Claim :=
  match dt with
  | [_; _; public_id; _] =>
      match truthy_id public_id with
      | Some id => [(id, li)]
      | None => []
      end
  | _ => []
  end.

Definition system_id_claim (li : LangInfo) (dt : Doctype) : list Claim :=
  match dt with
  | [_; _; _; system_id] =>
      match truthy_id system_id with
      | Some id => [(id, li)]
      | None => []
      end
  | _ => []
  end.

Definition mode_claim (li : LangInfo) (em : string) : list Claim := [(em, li)].

(** The claims of a list of descriptors, in order. *)
Definition ext_claims (lis : list LangInfo) : list Claim :=
  flat_map (fun li => flat_map (ext_claim li) (items (exts li))) lis.

Definition filename_claims (lis : list LangInfo) : list Claim :=
  flat_map (fun li => flat_map (filename_claim li) (items (filename_patterns li)))
    lis.

Definition public_id_claims (lis : list LangInfo) : list Claim :=
  flat_map (fun li => flat_map (public_id_claim li) (items (doctypes li))) lis.

Definition system_id_claims (lis : list LangInfo) : list Claim :=
  flat_map (fun li => flat_map (system_id_claim li) (items (doctypes li))) lis.

Definition mode_claims (lis : list LangInfo) : list Claim :=
  flat_map (fun li => flat_map (mode_claim li) (items (emacs_modes li))) lis.

(** A table filled claim after claim. *)
Definition claim (m : gmap string LangInfo) (c : Claim) : gmap string LangInfo :=
  <[fst c := snd c]> m.

(** A magic-table entry of the regex kind. *)
Definition regex_rule (entry : MagicNumber * LangInfo) : bool :=
  match fst entry with
  | [_; format; _] => py_eq format (PStr "regex")
  | _ => false
  end.

(** The database a lookup leaves behind: the same descriptors, the tables
    in place. *)
Definition built (db : Database) : Database := snd (fst (ensure_tables db)).

(** The descriptors the walk along the resolving bases can visit. *)
Inductive reaches (db : Database) : LangInfo -> LangInfo -> Prop :=
| reaches_self li : reaches db li li
| reaches_base li base base_li li' :
    In base (bases_of li) ->
    langinfo_from_lang db base = Ok base_li ->
    reaches db base_li li' ->
    reaches db li li'.


(** The names of the data attributes [class LangInfo] declares. *)
Definition core_attribute (attr : string) : bool :=
  existsb (String.eqb attr)
    ["name"; "exts"; "filename_patterns"; "magic_numbers"; "doctypes";
     "emacs_modes"; "default_encoding"; "encoding_decl_pattern";
     "conforms_to_bases"].

(** Every descriptor sits under the lower-case form of its own name. *)
Definition keyed_by_name (d : PyDict LangInfo) : Prop :=
  forall k li, dict_get d k = Some li -> k = lower (name li).

End TableReadings.

Module MoreSamples.

(** Two descriptors whose names differ in case only. *)
Definition Perl : LangInfo := Samples.with_exts "Perl" [".pl"].
Definition PERL : LangInfo := Samples.with_exts "PERL" [".pm"].

(** Two descriptors that ask for the same extension, file name, doctype
    ids and editor mode. *)
Definition rival (n : string) : LangInfo := {|
  name := n; exts := Some [".inc"; "inc"];
  filename_patterns := Some [FnExact "Makefile"; FnRegex Samples.shebang_re];
  magic_numbers := Some [Samples.shebang; Samples.class_file];
  doctypes := Some [[None; None; Some "P"; Some "S"]; [Some "x"];
                    [None; None; Some ""; None]];
  emacs_modes := Some ["inc-mode"; "text"];
  default_encoding := Some "utf-8"; encoding_decl_pattern := None;
  conforms_to_bases := Some ["Missing"; "Text"]; extra_attrs := []
|}.
Definition PHP : LangInfo := rival "PHP".
Definition Pascal : LangInfo := rival "Pascal".
Definition rivals_db : Database := Samples.database_of [PHP; Pascal].

(** A descriptor whose only magic number names a struct format that
    [struct] rejects, beside entries of every other kind. *)
Definition Unsized : LangInfo := {|
  name := "Unsized"; exts := Some [".uz"];
  filename_patterns := Some [FnExact "Unsizedfile"; FnRegex Samples.shebang_re];
  magic_numbers := Some [[PInt 0; PStr "zz"; PInt 1]];
  doctypes := Some [[None; None; Some "-//UZ//DTD"; Some "uz.dtd"]];
  emacs_modes := Some ["uz-mode"];
  default_encoding := None; encoding_decl_pattern := None;
  conforms_to_bases := Some ["Text"]; extra_attrs := []
|}.
Definition unsized_db : Database := Samples.database_of [Unsized].

(** Units as found: with imports that fail, and with a class that does
    not set its name. *)
Definition found_units : list FoundUnit :=
  [None; Some [Named Perl]; None; Some [Named PERL]].
Definition nameless_units : list FoundUnit :=
  [Some [Named Perl; Nameless]; Some [Named PERL]].

(** An installation with one unit that fails to import. *)
Definition broken_units : list Unit := [None; Some [Perl]; None; Some [PERL]].

End MoreSamples.

(** * Theorems *)

(** ** The runtime model on known values *)

Example hash_a : CPython27.string_hash 64 "a" = 12416037344%Z.
Proof. reflexivity. Qed.

Example hash_b : CPython27.string_hash 64 "b" = 12544037731%Z.
Proof. reflexivity. Qed.

Example order_letters :
  CPython27.iter_order 64 ["a"; "b"; "c"; "d"; "e"; "f"; "g"; "h"]
  = ["a"; "c"; "b"; "e"; "d"; "g"; "f"; "h"].
Proof. vm_compute. reflexivity. Qed.

Example order_numerals :
  CPython27.iter_order 64 ["one"; "two"; "three"] = ["three"; "two"; "one"].
Proof. vm_compute. reflexivity. Qed.

Example order_ba : CPython27.iter_order 32 ["b"; "a"] = ["a"; "b"]
                   /\ CPython27.iter_order 64 ["b"; "a"] = ["a"; "b"].
Proof. split; vm_compute; reflexivity. Qed.

Example unpack_class_file :
  CPython27.unpack ">L"
    (String (ascii_of_nat 202) (String (ascii_of_nat 254)
      (String (ascii_of_nat 186) (String (ascii_of_nat 190) ""))))
  = Some [PInt 3405691582].
Proof. vm_compute. reflexivity. Qed.

Example slice_past_end : py_slice "ab" 5 5 = "" /\ py_slice "abcdef" (-2) 7 = "ef".
Proof. split; reflexivity. Qed.

(** ** Strings *)



(** ** The catalogue *)

Lemma dict_get_set_eq {V} (d : PyDict V) k v :
  dict_get (dict_set d k v) k = Some v.
Proof.
  induction d as [|[k' v'] d IH]; simpl.
  - now rewrite String.eqb_refl.
  - destruct (String.eqb k k') eqn:Hk; simpl; rewrite Hk; [reflexivity | exact IH].
Qed.

Lemma dict_get_set_ne {V} (d : PyDict V) k k' v :
  k <> k' -> dict_get (dict_set d k v) k' = dict_get d k'.
Proof.
  intros Hne. induction d as [|[k0 v0] d IH]; simpl.
  - apply String.eqb_neq in Hne. rewrite String.eqb_sym in Hne. now rewrite Hne.
  - destruct (String.eqb k k0) eqn:Hk; simpl.
    + apply String.eqb_eq in Hk. subst k0.
      assert (String.eqb k' k = false) as ->; [|reflexivity].
      apply String.eqb_neq. congruence.
    + now rewrite IH.
Qed.

(** A registered descriptor is found under its own name, in any case. *)
Lemma langinfo_from_lang_register db li lang :
  lower lang = lower (name li) ->
  langinfo_from_lang (register db li) lang = Ok li.
Proof.
  intros Hlower. unfold langinfo_from_lang, register, _norm_lang_from_lang.
  cbn [_langinfo_from_norm_lang]. now rewrite Hlower, dict_get_set_eq.
Qed.

(** ** Conformance *)

Section ConformanceFacts.
Variable db : Database.

Lemma conforms_to_unfold depth self lang :
  conforms_to (S depth) db self lang =
    if String.eqb lang (name self) then Ok true
    else match conforms_to_bases self with
         | Some ((_ :: _) as bases) =>
             if existsb (String.eqb lang) bases then Ok true
             else conforms_to_loop
                    (fun base_li => conforms_to depth db base_li lang) db bases
         | _ => Ok false
         end.
Proof. reflexivity. Qed.

Lemma langinfo_from_lang_raises lang e :
  langinfo_from_lang db lang = Raise e -> e = LangInfoError.
Proof.
  unfold langinfo_from_lang.
  destruct (dict_get _ _); intros Heq; congruence.
Qed.

Lemma existsb_eqb_In lang bases :
  existsb (String.eqb lang) bases = true <-> In lang bases.
Proof.
  rewrite existsb_exists. split.
  - intros (x & Hin & Heq). apply String.eqb_eq in Heq. now subst.
  - intros Hin. exists lang. split; [assumption | apply String.eqb_refl].
Qed.

(** What the loop over the bases answers, in terms of the check it is
    given. *)
Lemma conforms_to_loop_true check bases :
  conforms_to_loop check db bases = Ok true ->
  exists base base_li,
    In base bases /\ langinfo_from_lang db base = Ok base_li
    /\ check base_li = Ok true.
Proof.
  induction bases as [|base rest IH]; simpl; [discriminate|].
  destruct (langinfo_from_lang db base) as [base_li|e] eqn:Hres.
  - destruct (check base_li) as [[|]|e] eqn:Hc; intros Heq; try discriminate.
    + exists base, base_li. auto.
    + destruct (IH Heq) as (b & bl & Hin & Hr & Hk). exists b, bl. auto.
  - destruct e; try discriminate.
    intros Heq. destruct (IH Heq) as (b & bl & Hin & Hr & Hk).
    exists b, bl. auto.
Qed.

Lemma conforms_to_loop_false check bases :
  conforms_to_loop check db bases = Ok false ->
  forall base base_li,
    In base bases -> langinfo_from_lang db base = Ok base_li ->
    check base_li = Ok false.
Proof.
  induction bases as [|base rest IH]; simpl; [intros _ ? ? []|].
  destruct (langinfo_from_lang db base) as [base_li|e] eqn:Hres.
  - destruct (check base_li) as [[|]|e] eqn:Hc; intros Heq; try discriminate.
    intros b bl [<-|Hin] Hr; [congruence | eauto].
  - destruct e; try discriminate.
    intros Heq b bl [<-|Hin] Hr; [congruence | eauto].
Qed.

Lemma conforms_to_loop_returns check bases :
  (forall base base_li,
      In base bases -> langinfo_from_lang db base = Ok base_li ->
      exists b, check base_li = Ok b) ->
  exists b, conforms_to_loop check db bases = Ok b.
Proof.
  induction bases as [|base rest IH]; simpl; intros Hall; [eauto|].
  destruct (langinfo_from_lang db base) as [base_li|e] eqn:Hres.
  - destruct (Hall base base_li) as [[|] Hb]; auto; rewrite Hb; eauto.
  - rewrite (langinfo_from_lang_raises _ _ Hres). eauto.
Qed.

Lemma conformant_attr_loop_returns inherit bases :
  (forall base base_li,
      In base bases -> langinfo_from_lang db base = Ok base_li ->
      exists v, inherit base_li = Ok v) ->
  exists v, conformant_attr_loop inherit db bases = Ok v.
Proof.
  induction bases as [|base rest IH]; simpl; intros Hall; [eauto|].
  destruct (langinfo_from_lang db base) as [base_li|e] eqn:Hres.
  - destruct (Hall base base_li) as [[v|] Hv]; auto; rewrite Hv; eauto.
  - rewrite (langinfo_from_lang_raises _ _ Hres). eauto.
Qed.

Lemma bases_of_cons self b bs :
  conforms_to_bases self = Some (b :: bs) -> bases_of self = b :: bs.
Proof. unfold bases_of. now intros ->. Qed.

(** A [true] answer is backed by the relation ... *)
Lemma conforms_to_true_spec depth :
  forall self lang,
    conforms_to depth db self lang = Ok true -> conforms_spec db self lang.
Proof.
  induction depth as [|depth IH]; intros self lang; [discriminate|].
  rewrite conforms_to_unfold.
  destruct (String.eqb lang (name self)) eqn:Hname.
  - apply String.eqb_eq in Hname. subst. constructor.
  - destruct (conforms_to_bases self) as [[|b bs]|] eqn:Hb; try discriminate.
    rewrite <- (bases_of_cons _ _ _ Hb).
    destruct (existsb _ _) eqn:Hex.
    + intros _. apply conforms_direct. now apply existsb_eqb_In.
    + intros Hloop. apply conforms_to_loop_true in Hloop.
      destruct Hloop as (base & base_li & Hin & Hres & Hk).
      eapply conforms_via; eauto.
Qed.

(** ... and a [false] answer rules it out. *)
Lemma conforms_to_false_spec depth :
  forall self lang,
    conforms_to depth db self lang = Ok false -> ~ conforms_spec db self lang.
Proof.
  induction depth as [|depth IH]; intros self lang; [discriminate|].
  rewrite conforms_to_unfold.
  destruct (String.eqb lang (name self)) eqn:Hname; [discriminate|].
  apply String.eqb_neq in Hname.
  destruct (conforms_to_bases self) as [[|b bs]|] eqn:Hb.
  - intros _ Hspec. inversion Hspec; subst; try congruence;
      unfold bases_of in *; rewrite Hb in *; simpl in *; tauto.
  - rewrite <- (bases_of_cons _ _ _ Hb).
    destruct (existsb _ _) eqn:Hex; [discriminate|].
    intros Hloop Hspec.
    inversion Hspec as [|? ? Hin|? base base_li ? Hin Hres Hrec]; subst.
    + congruence.
    + apply existsb_eqb_In in Hin. congruence.
    + eapply IH; [|exact Hrec].
      exact (conforms_to_loop_false _ _ Hloop base base_li Hin Hres).
  - intros _ Hspec. inversion Hspec; subst; try congruence;
      unfold bases_of in *; rewrite Hb in *; simpl in *; tauto.
Qed.

Lemma walk_fits_le n :
  forall m self, n <= m -> walk_fits n db self = true ->
                 walk_fits m db self = true.
Proof.
  induction n as [|n IH]; intros m self Hle; [discriminate|].
  destruct m as [|m]; [lia|]. simpl.
  rewrite !forallb_forall. intros Hall base Hin.
  specialize (Hall base Hin).
  destruct (langinfo_from_lang db base); [|reflexivity].
  apply IH; [lia | assumption].
Qed.

Lemma walk_fits_base n self base base_li :
  walk_fits (S n) db self = true -> In base (bases_of self) ->
  langinfo_from_lang db base = Ok base_li -> walk_fits n db base_li = true.
Proof.
  simpl. rewrite forallb_forall. intros Hall Hin Hres.
  specialize (Hall base Hin). now rewrite Hres in Hall.
Qed.

Lemma walk_fits_conforms_to n :
  forall self lang,
    walk_fits n db self = true -> exists b, conforms_to n db self lang = Ok b.
Proof.
  induction n as [|n IH]; intros self lang Hfits; [discriminate|].
  rewrite conforms_to_unfold.
  destruct (String.eqb lang (name self)); [eauto|].
  destruct (conforms_to_bases self) as [[|b bs]|] eqn:Hb; eauto.
  destruct (existsb _ _); [eauto|].
  apply conforms_to_loop_returns. intros base base_li Hin Hres.
  apply IH. eapply walk_fits_base; eauto.
  now rewrite (bases_of_cons _ _ _ Hb).
Qed.

Lemma walk_fits_conformant_attr n :
  forall self attr,
    walk_fits n db self = true ->
    exists v, conformant_attr n db self attr = Ok v.
Proof.
  induction n as [|n IH]; intros self attr Hfits; [discriminate|].
  simpl conformant_attr.
  assert (exists v,
    conformant_attr_loop (fun base_li => conformant_attr n db base_li attr)
      db (default [] (conforms_to_bases self)) = Ok v) as Hloop.
  { apply conformant_attr_loop_returns. intros base base_li Hin Hres.
    apply IH. eapply walk_fits_base; eauto. }
  destruct (getattr self attr) as [[val|]|]; eauto.
Qed.

End ConformanceFacts.

(** *** Cycles *)

(** A descriptor whose first base resolves to itself never answers a
    question it cannot settle from its own name and base list. *)
Lemma first_base_cycle_never_returns db self base rest lang :
  conforms_to_bases self = Some (base :: rest) ->
  langinfo_from_lang db base = Ok self ->
  String.eqb lang (name self) = false ->
  existsb (String.eqb lang) (base :: rest) = false ->
  forall depth, conforms_to depth db self lang = Raise RuntimeError.
Proof.
  intros Hbases Hres Hname Hdirect depth.
  induction depth as [|depth IH]; [reflexivity|].
  rewrite conforms_to_unfold, Hname, Hbases, Hdirect.
  cbn [conforms_to_loop]. now rewrite Hres, IH.
Qed.

Lemma loop_db_never_conforms depth lang :
  String.eqb lang "Loop" = false ->
  conforms_to depth Samples.loop_db Samples.Loop lang = Raise RuntimeError.
Proof.
  intros Hne. induction depth as [|depth IH]; [reflexivity|].
  rewrite conforms_to_unfold.
  change (name Samples.Loop) with "Loop". rewrite Hne.
  change (conforms_to_bases Samples.Loop) with (Some ["Loop"]).
  cbn [existsb conforms_to_loop]. rewrite Hne. cbn [orb].
  change (langinfo_from_lang Samples.loop_db "Loop") with (Ok Samples.Loop).
  cbv beta iota. now rewrite IH.
Qed.

Lemma loop_db_never_inherits depth :
  conformant_attr depth Samples.loop_db Samples.Loop "default_encoding"
  = Raise RuntimeError.
Proof.
  induction depth as [|depth IH]; [reflexivity|].
  simpl. simpl in IH. now rewrite IH.
Qed.

Lemma ping_pong_never_conforms depth :
  conforms_to depth Samples.ping_pong_db Samples.Ping "Text" = Raise RuntimeError
  /\ conforms_to depth Samples.ping_pong_db Samples.Pong "Text" = Raise RuntimeError.
Proof.
  induction depth as [|depth [IHping IHpong]]; [split; reflexivity|].
  split; rewrite conforms_to_unfold; simpl.
  - now rewrite IHpong.
  - now rewrite IHping.
Qed.

Lemma detour_db_loop_never_conforms depth :
  conforms_to depth Samples.detour_db Samples.Loop "Text" = Raise RuntimeError.
Proof.
  induction depth as [|depth IH]; [reflexivity|].
  rewrite conforms_to_unfold. simpl. now rewrite IH.
Qed.

(** C1, as the code has it. A descriptor from which the walk along the
    resolving bases fits in [n] nested calls (no cycle can be reached
    from it) gets an answer from both [conforms_to] and [conformant_attr]
    at every recursion depth of at least [n]. *)
Theorem conformance_walk_returns_when_acyclic
    n depth db self lang attr :
  walk_fits n db self = true -> n <= depth ->
  (exists b, conforms_to depth db self lang = Ok b)
  /\ (exists v, conformant_attr depth db self attr = Ok v).
Proof.
  intros Hfits Hle.
  pose proof (walk_fits_le db n depth self Hle Hfits) as Hdepth.
  split.
  - now apply walk_fits_conforms_to.
  - now apply walk_fits_conformant_attr.
Qed.

Lemma conformance_walk_returns_on_chain :
  (exists b, conforms_to 3 Samples.chain_db Samples.RDF "Text" = Ok b)
  /\ (exists v, conformant_attr 3 Samples.chain_db Samples.RDF "exts" = Ok v).
Proof.
  apply (conformance_walk_returns_when_acyclic
           3 3 Samples.chain_db Samples.RDF "Text" "exts").
  - reflexivity.
  - lia.
Defined.

(** C1, as the claim has it, fails: there is no guard against cycles. A
    descriptor that is its own base, asked about a name the walk does not
    find, recurses until the interpreter gives up, whatever the recursion
    limit; so do two descriptors that name each other. *)
Lemma self_cycle_exhausts_every_depth :
  (forall depth,
      conforms_to depth Samples.loop_db Samples.Loop "Text" = Raise RuntimeError)
  /\ (forall depth,
         conformant_attr depth Samples.loop_db Samples.Loop "default_encoding"
         = Raise RuntimeError)
  /\ (forall depth,
         conforms_to depth Samples.ping_pong_db Samples.Ping "Text"
         = Raise RuntimeError).
Proof.
  split; [|split].
  - intros depth. now apply loop_db_never_conforms.
  - apply loop_db_never_inherits.
  - intros depth. apply ping_pong_never_conforms.
Qed.

(** *** Reflexivity *)

(** C3, as the code has it. [conforms_to(d, t)] is true when [t] is
    exactly [d.name]: the comparison is [lang == self.name], with no
    normalisation. In particular [conforms_to(d, d.name)] is true for
    every descriptor, in any database, as soon as the call can be made. *)
Theorem conforms_to_own_name depth db d :
  conforms_to (S depth) db d (name d) = Ok true.
Proof.
  rewrite conforms_to_unfold. now rewrite String.eqb_refl.
Qed.

(** C3, as the claim has it, fails: a target that only normalises to the
    descriptor's key is not recognised. ["text"] and ["Text"] share the
    key under which [TextLangInfo] is stored, and [TextLangInfo] does not
    conform to ["text"]. *)
Lemma conforms_to_ignores_normalisation :
  _norm_lang_from_lang "text" = _norm_lang_from_lang (name TextLangInfo)
  /\ langinfo_from_lang Samples.text_db "text" = Ok TextLangInfo
  /\ (forall depth,
         conforms_to (S depth) Samples.text_db TextLangInfo "text" = Ok false).
Proof.
  split; [reflexivity|]. split; [reflexivity|].
  intros depth. reflexivity.
Qed.

(** *** Transitivity *)

(** C8, as the code has it. With [B] stored in the database, [B]'s name
    among the bases of [A] and [C]'s name among the bases of [B],
    [conforms_to(A, C.name)] is true provided the walk from [A] is free of
    cycles (it fits in [n] nested calls, and [depth] allows that many). *)
Theorem conforms_to_transitive_when_acyclic n depth db A B C :
  walk_fits n db A = true -> n <= depth ->
  langinfo_from_lang db (name B) = Ok B ->
  In (name B) (bases_of A) ->
  In (name C) (bases_of B) ->
  conforms_to depth db A (name C) = Ok true.
Proof.
  intros Hfits Hle HB HAB HBC.
  pose proof (walk_fits_le db n depth A Hle Hfits) as Hdepth.
  destruct (walk_fits_conforms_to db depth A (name C) Hdepth) as [[|] Hb];
    [assumption|].
  exfalso. apply (conforms_to_false_spec db depth A (name C) Hb).
  eapply conforms_via; [exact HAB | exact HB |].
  now apply conforms_direct.
Qed.

Lemma conforms_to_transitive_on_chain :
  conforms_to 3 Samples.chain_db Samples.RDF (name TextLangInfo) = Ok true.
Proof.
  apply (conforms_to_transitive_when_acyclic
           3 3 Samples.chain_db Samples.RDF Samples.XML TextLangInfo).
  - reflexivity.
  - lia.
  - reflexivity.
  - simpl. auto.
  - simpl. auto.
Defined.

(** C8, as the claim has it, fails where a cycle comes first. [Detour]
    names [Loop] and then [XML]; [XML] names [Text]; all are stored. The
    walk enters [Loop] before it looks at [XML] and never comes back. *)
Lemma transitivity_lost_behind_a_cycle :
  langinfo_from_lang Samples.detour_db (name Samples.Detour) = Ok Samples.Detour
  /\ langinfo_from_lang Samples.detour_db (name Samples.XML) = Ok Samples.XML
  /\ langinfo_from_lang Samples.detour_db (name TextLangInfo) = Ok TextLangInfo
  /\ In (name Samples.XML) (bases_of Samples.Detour)
  /\ In (name TextLangInfo) (bases_of Samples.XML)
  /\ (forall depth,
         conforms_to depth Samples.detour_db Samples.Detour (name TextLangInfo)
         = Raise RuntimeError).
Proof.
  repeat split; try reflexivity; try (simpl; tauto).
  intros [|depth]; [reflexivity|].
  rewrite conforms_to_unfold. simpl.
  now rewrite detour_db_loop_never_conforms.
Qed.

(** *** [is_text] *)

(** C10, as the code has it. [is_text] has no state of its own: on a
    descriptor from which no cycle can be reached (the walk fits in [n]
    nested calls, and [depth] allows that many) it returns a boolean, the
    very one [conforms_to("Text")] returns, and that boolean is true
    exactly when the descriptor conforms to [Text], by name, directly or
    through its bases. *)
Theorem is_text_is_conforms_to_Text n depth db d :
  walk_fits n db d = true -> n <= depth ->
  exists b,
    is_text depth db d = Ok b
    /\ conforms_to depth db d "Text" = Ok b
    /\ (b = true <-> conforms_spec db d "Text").
Proof.
  intros Hfits Hle.
  pose proof (walk_fits_le db n depth d Hle Hfits) as Hdepth.
  destruct (walk_fits_conforms_to db depth d "Text" Hdepth) as [b Hb].
  exists b. split; [exact Hb|]. split; [exact Hb|].
  destruct b.
  - split; [intros _ | reflexivity]. eapply conforms_to_true_spec; eauto.
  - split; [discriminate|]. intros Hspec. exfalso.
    eapply conforms_to_false_spec; eauto.
Qed.

Lemma is_text_on_chain :
  exists b,
    is_text 3 Samples.chain_db Samples.RDF = Ok b
    /\ conforms_to 3 Samples.chain_db Samples.RDF "Text" = Ok b
    /\ (b = true <-> conforms_spec Samples.chain_db Samples.RDF "Text").
Proof.
  apply (is_text_is_conforms_to_Text 3 3 Samples.chain_db Samples.RDF).
  - reflexivity.
  - lia.
Defined.

(** C10, as the claim has it, fails behind a cycle. [Detour] conforms to
    [Text] through [XML], yet [is_text] never says so: the walk enters
    [Loop] first and exceeds every recursion limit. *)
Lemma is_text_raises_though_conforming :
  conforms_spec Samples.detour_db Samples.Detour "Text"
  /\ (forall depth,
         is_text depth Samples.detour_db Samples.Detour = Raise RuntimeError).
Proof.
  split.
  - apply (conforms_via Samples.detour_db Samples.Detour "XML" Samples.XML).
    + simpl. tauto.
    + reflexivity.
    + apply conforms_direct. simpl. tauto.
  - intros [|depth]; [reflexivity|].
    unfold is_text. rewrite conforms_to_unfold. simpl.
    now rewrite detour_db_loop_never_conforms.
Qed.

(** ** The tables *)

Section TableFacts.
Context `{PyRuntime}.

(** Each inner loop of [_build_tables] leaves the tables it does not
    own as they were. *)
Ltac fold_keeps :=
  let l := fresh "l" in
  let b := fresh "b" in
  intros l; induction l as [|? l IHl]; intros b; simpl;
  [reflexivity | rewrite IHl; destruct b; reflexivity].

Lemma add_ext_keeps_magic li :
  forall l b, _magic_table (fst (fold_left (add_ext li) l b))
              = _magic_table (fst b).
Proof. fold_keeps. Qed.

Lemma add_filename_pattern_keeps_magic li :
  forall l b, _magic_table (fst (fold_left (add_filename_pattern li) l b))
              = _magic_table (fst b).
Proof. fold_keeps. Qed.

Lemma add_doctype_keeps li (b : Build) dt :
  _magic_table (fst (add_doctype li b dt)) = _magic_table (fst b)
  /\ _langinfo_from_ext (fst (add_doctype li b dt)) = _langinfo_from_ext (fst b).
Proof.
  destruct b as [t log].
  destruct dt as [|? [|? [|? [|? [|? ?]]]]]; split; reflexivity.
Qed.

Lemma add_doctype_keeps_magic li :
  forall l b, _magic_table (fst (fold_left (add_doctype li) l b))
              = _magic_table (fst b).
Proof.
  intros l; induction l as [|dt l IHl]; intros b; simpl; [reflexivity|].
  rewrite IHl. apply add_doctype_keeps.
Qed.

Lemma add_emacs_mode_keeps_magic li :
  forall l b, _magic_table (fst (fold_left (add_emacs_mode li) l b))
              = _magic_table (fst b).
Proof. fold_keeps. Qed.

Lemma add_magic_number_appends li :
  forall l b, _magic_table (fst (fold_left (add_magic_number li) l b))
              = _magic_table (fst b) ++ map (fun mn => (mn, li)) l.
Proof.
  intros l; induction l as [|mn l IHl]; intros b; simpl.
  - now rewrite app_nil_r.
  - rewrite IHl. destruct b as [t log]. simpl. now rewrite <- app_assoc.
Qed.

Lemma index_langinfo_magic b li :
  _magic_table (fst (index_langinfo b li))
  = _magic_table (fst b) ++ map (fun mn => (mn, li)) (items (magic_numbers li)).
Proof.
  unfold index_langinfo.
  rewrite add_emacs_mode_keeps_magic, add_doctype_keeps_magic,
    add_magic_number_appends, add_filename_pattern_keeps_magic,
    add_ext_keeps_magic.
  reflexivity.
Qed.

Lemma fold_index_langinfo_magic :
  forall lis b,
    _magic_table (fst (fold_left index_langinfo lis b))
    = _magic_table (fst b) ++ flattened_magic lis.
Proof.
  intros lis; induction lis as [|li lis IH]; intros b; simpl.
  - now rewrite app_nil_r.
  - rewrite IH, index_langinfo_magic. now rewrite <- app_assoc.
Qed.

Lemma build_tables_magic db :
  _magic_table (fst (_build_tables db)) = flattened_magic (langinfos db).
Proof. unfold _build_tables. now rewrite fold_index_langinfo_magic. Qed.








(** What a lookup does to the database, whatever it answers. *)
Lemma ensure_tables_fresh db :
  _tables db = None ->
  ensure_tables db
  = (fst (_build_tables db),
     {| _langinfo_from_norm_lang := _langinfo_from_norm_lang db;
        _tables := Some (fst (_build_tables db)) |},
     snd (_build_tables db)).
Proof.
  intros Hnone. unfold ensure_tables. rewrite Hnone.
  now destruct (_build_tables db).
Qed.

Lemma ensure_tables_cached db t :
  _tables db = Some t -> ensure_tables db = (t, db, []).
Proof. intros Hsome. unfold ensure_tables. now rewrite Hsome. Qed.

Lemma ensure_tables_catalog db :
  _langinfo_from_norm_lang (snd (fst (ensure_tables db)))
  = _langinfo_from_norm_lang db.
Proof.
  unfold ensure_tables. destruct (_tables db); [reflexivity|].
  now destruct (_build_tables db).
Qed.

Lemma langinfo_from_ext_result db ext :
  result (langinfo_from_ext db ext)
  = Ok (_langinfo_from_ext (tables_in_use db)
          !! (if case_insensitive_platform then lower ext else ext)).
Proof.
  unfold langinfo_from_ext, tables_in_use.
  now destruct (ensure_tables db) as [[t db'] log].
Qed.

Lemma langinfo_from_magic_result db head_bytes shebang_only :
  result (langinfo_from_magic db head_bytes shebang_only)
  = fst (magic_scan head_bytes shebang_only
           (_magic_table (tables_in_use db)) None).
Proof.
  unfold langinfo_from_magic, tables_in_use.
  destruct (ensure_tables db) as [[t db'] log]. simpl.
  now destruct (magic_scan _ _ _ _).
Qed.

Lemma langinfo_from_magic_events db head_bytes shebang_only :
  events (langinfo_from_magic db head_bytes shebang_only)
  = snd (ensure_tables db)
    ++ snd (magic_scan head_bytes shebang_only
              (_magic_table (tables_in_use db)) None).
Proof.
  unfold langinfo_from_magic, tables_in_use.
  destruct (ensure_tables db) as [[t db'] log]. simpl.
  now destruct (magic_scan _ _ _ _).
Qed.

End TableFacts.

(** ** Magic numbers *)

Section MagicFacts.
Context `{PyRuntime}.

Lemma substring_length_le s :
  forall n m, String.length (substring n m s) <= String.length s - n.
Proof.
  induction s as [|c s IH]; intros [|n] [|m]; simpl; try lia.
  - specialize (IH 0 m). lia.
  - apply IH.
  - apply IH.
Qed.

(** A window that ends before [start + width] gives a slice shorter
    than [width]. *)
Lemma short_window_short_slice head_bytes start width :
  (0 < width)%Z ->
  (Z.of_nat (String.length head_bytes) < start + width)%Z ->
  (Z.of_nat (String.length (py_slice head_bytes start (start + width)))
   < width)%Z.
Proof.
  intros Hpos Hshort. unfold py_slice, clamp_index.
  match goal with
  | |- context [substring ?n ?m head_bytes] =>
      pose proof (substring_length_le head_bytes n m) as Hlen;
      revert Hlen; generalize (String.length (substring n m head_bytes))
  end.
  intros len.
  destruct (Z.ltb_spec start 0); lia.
Qed.

Lemma eqb_length_differs s t :
  String.length s <> String.length t -> String.eqb s t = false.
Proof.
  intros Hlen. apply String.eqb_neq. intros ->. now apply Hlen.
Qed.

(** A tuple that is not a triple is passed over without a word. *)
Lemma probe_wrong_arity head_bytes shebang_only li mn length :
  List.length mn <> 3 ->
  probe head_bytes shebang_only li mn length = quiet Miss length.
Proof.
  destruct mn as [|? [|? [|? [|? ?]]]]; simpl; intros Hlen;
    solve [reflexivity | lia].
Qed.

Lemma magic_scan_miss head_bytes shebang_only mn li rest length :
  step (probe head_bytes shebang_only li mn length) = Miss ->
  warned (probe head_bytes shebang_only li mn length) = [] ->
  magic_scan head_bytes shebang_only ((mn, li) :: rest) length
  = magic_scan head_bytes shebang_only rest
      (length_after (probe head_bytes shebang_only li mn length)).
Proof.
  intros Hstep Hwarned. cbn [magic_scan]. rewrite Hstep, Hwarned.
  now destruct (magic_scan _ _ rest _).
Qed.

(** The scan answers with the first entry that hits, once the entries
    before it are all passed over. *)
Lemma magic_scan_first_hit head_bytes shebang_only :
  forall before entry after length,
    Forall (misses head_bytes shebang_only) before ->
    hits head_bytes shebang_only entry ->
    fst (magic_scan head_bytes shebang_only (before ++ entry :: after) length)
    = Ok (Some (snd entry)).
Proof.
  intros before; induction before as [|[mn li] before IH];
    intros [mn' li'] after length Hbefore Hhit.
  - unfold hits in Hhit. cbn [fst snd] in Hhit.
    cbn [app magic_scan]. now rewrite (Hhit length).
  - inversion Hbefore as [|? ? Hmiss Hrest]; subst.
    unfold misses in Hmiss. cbn [fst snd] in Hmiss.
    cbn [app magic_scan]. rewrite (Hmiss length).
    specialize (IH (mn', li') after
                  (length_after (probe head_bytes shebang_only li mn length))
                  Hrest Hhit).
    now destruct (magic_scan _ _ _ _).
Qed.

Lemma magic_scan_all_miss head_bytes shebang_only :
  forall table length,
    Forall (misses head_bytes shebang_only) table ->
    fst (magic_scan head_bytes shebang_only table length) = Ok None.
Proof.
  intros table; induction table as [|[mn li] table IH]; intros length Hall;
    [reflexivity|].
  inversion Hall as [|? ? Hmiss Hrest]; subst.
  unfold misses in Hmiss. cbn [fst snd] in Hmiss.
  cbn [magic_scan]. rewrite (Hmiss length).
  specialize (IH (length_after (probe head_bytes shebang_only li mn length))
                Hrest).
  now destruct (magic_scan _ _ _ _).
Qed.

Lemma magic_scan_skips_wrong_arity head_bytes shebang_only :
  forall table length,
    magic_scan head_bytes shebang_only table length
    = magic_scan head_bytes shebang_only
        (List.filter well_formed_arity table) length.
Proof.
  intros table; induction table as [|[mn li] table IH]; intros length;
    [reflexivity|].
  cbn [List.filter]. unfold well_formed_arity at 1. cbn [fst].
  destruct (Nat.eqb_spec (List.length mn) 3) as [Heq|Hne].
  - cbn [magic_scan].
    destruct (step (probe head_bytes shebang_only li mn length));
      try reflexivity.
    now rewrite IH.
  - cbn [magic_scan]. rewrite (probe_wrong_arity _ _ _ _ _ Hne).
    cbn [step quiet length_after warned]. rewrite IH.
    now destruct (magic_scan _ _ _ _).
Qed.

End MagicFacts.

(** *** Malformed rules *)

(** C2, as the code has it. A magic-number tuple of the wrong arity is
    dropped silently by the lookup: the answer and the warnings are those
    of the same scan with such tuples taken out of the table, so the
    other rules are probed as before and can still match. *)
Theorem wrong_arity_rules_are_dropped_silently `{PyRuntime}
    db head_bytes shebang_only :
  result (langinfo_from_magic db head_bytes shebang_only)
  = fst (magic_scan head_bytes shebang_only
           (List.filter well_formed_arity (_magic_table (tables_in_use db)))
           None)
  /\ events (langinfo_from_magic db head_bytes shebang_only)
     = snd (ensure_tables db)
       ++ snd (magic_scan head_bytes shebang_only
                 (List.filter well_formed_arity
                    (_magic_table (tables_in_use db)))
                 None).
Proof.
  rewrite langinfo_from_magic_result, langinfo_from_magic_events.
  now rewrite <- magic_scan_skips_wrong_arity.
Qed.

(** C2, as the claim has it, fails twice. The pair in [Pair] is dropped
    and the rule after it matches, but nothing is reported. The format
    ["zz"] in [BadStruct] is reported, and then the lookup goes on to use
    the size it never got: it raises, and the valid rule after it is
    never probed. *)
Lemma malformed_rule_silent_or_fatal :
  result (langinfo_from_magic (H := Samples.linux) Samples.pair_db "#!/bin/sh" false)
  = Ok (Some Samples.Pair)
  /\ events (langinfo_from_magic (H := Samples.linux) Samples.pair_db "#!/bin/sh" false)
     = []
  /\ result (langinfo_from_magic (H := Samples.linux) Samples.bad_struct_db
               "#!/bin/sh" false)
     = Raise UnboundLocalError
  /\ events (langinfo_from_magic (H := Samples.linux) Samples.bad_struct_db
               "#!/bin/sh" false)
     = [WarnStructFormat "BadStruct" "zz"].
Proof. repeat split; vm_compute; reflexivity. Qed.

(** *** Probing order *)

(** C4, as the code has it. The magic table is one list: the magic
    numbers of each descriptor in the order written, descriptor after
    descriptor in the order [_langinfo_from_norm_lang.values()] yields
    them. The lookup answers with the first entry of the table that
    matches: of two matching entries, the one that comes first in the
    table decides. *)
Theorem magic_table_order_and_first_match `{PyRuntime}
    db head_bytes shebang_only before first between second after :
  _magic_table (tables_in_use db)
  = before ++ first :: between ++ second :: after ->
  Forall (misses head_bytes shebang_only) before ->
  hits head_bytes shebang_only first ->
  hits head_bytes shebang_only second ->
  _magic_table (fst (_build_tables db)) = flattened_magic (langinfos db)
  /\ result (langinfo_from_magic db head_bytes shebang_only)
     = Ok (Some (snd first)).
Proof.
  intros Htable Hbefore Hfirst _. split; [apply build_tables_magic|].
  rewrite langinfo_from_magic_result, Htable.
  now apply magic_scan_first_hit.
Qed.

Lemma first_match_in_table_order :
  _magic_table (fst (_build_tables (H := Samples.linux) Samples.ba_db))
  = flattened_magic (langinfos (H := Samples.linux) Samples.ba_db)
  /\ result (langinfo_from_magic (H := Samples.linux) Samples.ba_db "#!" false)
     = Ok (Some Samples.lang_a).
Proof.
  apply (magic_table_order_and_first_match (H := Samples.linux)
           Samples.ba_db "#!" false
           [] (Samples.shebang, Samples.lang_a)
           [] (Samples.shebang, Samples.lang_b) []).
  - vm_compute. reflexivity.
  - constructor.
  - intros length. reflexivity.
  - intros length. reflexivity.
Defined.

(** C4, as the claim has it, fails: the descriptors are kept in a Python 2
    [dict] and come out of [values()] in hash order. [b] is registered
    before [a]; both carry the same rule; the window matches it; the
    table lists [a] first and the lookup answers [a]. *)
Lemma later_registered_descriptor_wins :
  _langinfo_from_norm_lang Samples.ba_db
  = [("b", Samples.lang_b); ("a", Samples.lang_a)]
  /\ hits (H := Samples.linux) "#!/usr/bin/env a" false
       (Samples.shebang, Samples.lang_b)
  /\ hits (H := Samples.linux) "#!/usr/bin/env a" false
       (Samples.shebang, Samples.lang_a)
  /\ langinfos (H := Samples.linux) Samples.ba_db
     = [Samples.lang_a; Samples.lang_b]
  /\ result (langinfo_from_magic (H := Samples.linux) Samples.ba_db
               "#!/usr/bin/env a" false)
     = Ok (Some Samples.lang_a)
  /\ Samples.lang_a <> Samples.lang_b.
Proof.
  split; [reflexivity|].
  split; [intros length; reflexivity|].
  split; [intros length; reflexivity|].
  split; [vm_compute; reflexivity|].
  split; [vm_compute; reflexivity|].
  intros Heq. apply (f_equal name) in Heq. discriminate Heq.
Qed.

(** *** Short windows *)

(** C6, as the code has it. A string or struct rule that needs a
    positive width after its offset, probed on a window that ends before
    offset plus width, is passed over: no exception, no warning, and the
    scan goes on with the rest of the table. *)
Theorem short_window_is_passed_over `{PyRuntime}
    head_bytes shebang_only li start format pattern width rest length :
  required_width format pattern = Some width ->
  (0 < width)%Z ->
  (Z.of_nat (String.length head_bytes) < start + width)%Z ->
  step (probe head_bytes shebang_only li [PInt start; PStr format; pattern] length)
  = Miss
  /\ warned (probe head_bytes shebang_only li
               [PInt start; PStr format; pattern] length) = []
  /\ magic_scan head_bytes shebang_only
       (([PInt start; PStr format; pattern], li) :: rest) length
     = magic_scan head_bytes shebang_only rest
         (length_after (probe head_bytes shebang_only li
                          [PInt start; PStr format; pattern] length)).
Proof.
  intros Hwidth Hpos Hshort.
  assert (step (probe head_bytes shebang_only li
                  [PInt start; PStr format; pattern] length) = Miss
          /\ warned (probe head_bytes shebang_only li
                       [PInt start; PStr format; pattern] length) = [])
    as [Hstep Hwarned].
  { pose proof (short_window_short_slice head_bytes start width Hpos Hshort)
      as Hslice.
    unfold required_width in Hwidth. cbn [probe py_eq as_int].
    destruct (shebang_only && negb (String.eqb format "regex")); [now split|].
    destruct (String.eqb format "string").
    - destruct pattern as [| | |p|]; try discriminate Hwidth.
      cbn [py_len as_int] in *. injection Hwidth as <-.
      rewrite eqb_length_differs; [now split | lia].
    - destruct (String.eqb format "regex"); [discriminate Hwidth|].
      unfold probe_struct. rewrite Hwidth. cbn [as_int step warned].
      destruct (Z.eqb_spec
                  (Z.of_nat (String.length
                               (py_slice head_bytes start (start + width))))
                  width); [lia | now split]. }
  split; [assumption|]. split; [assumption|].
  now apply magic_scan_miss.
Qed.

Lemma short_window_before_shebang :
  step (probe (H := Samples.linux) "GIF" false Samples.Empty Samples.gif None)
  = Miss
  /\ step (probe (H := Samples.linux) "#!" false Samples.Empty
             Samples.class_file None) = Miss.
Proof.
  split.
  - apply (short_window_is_passed_over (H := Samples.linux)
             "GIF" false Samples.Empty 0 "string" (PStr "GIF89a") 6 [] None);
      [reflexivity | lia | simpl; lia].
  - apply (short_window_is_passed_over (H := Samples.linux)
             "#!" false Samples.Empty 0 ">L" (PInt 3405691582) 4 [] None);
      [reflexivity | lia | simpl; lia].
Defined.

(** C6, as the claim has it, fails for a rule that needs no width: the
    empty slice of a window that stops short of the offset equals the
    empty pattern, and the rule matches. *)
Lemma empty_pattern_matches_short_window :
  required_width (H := Samples.linux) "string" (PStr "") = Some 0%Z
  /\ (Z.of_nat (String.length "ab") < 5 + 0)%Z
  /\ result (langinfo_from_magic (H := Samples.linux) Samples.empty_db "ab" false)
     = Ok (Some Samples.Empty).
Proof.
  split; [reflexivity|]. split; [simpl; lia|]. vm_compute. reflexivity.
Qed.

(** ** The lookups *)

(** *** Doctypes *)

(** C5. A public id found in the public-id table decides the answer,
    whatever the system id is and whatever it would match; the system-id
    table is consulted only when no public id is given or the public id
    is not in its table. *)
Theorem doctype_public_id_takes_precedence `{PyRuntime} db :
  (forall pid system_id li,
      _li_from_doctype_public_id (tables_in_use db) !! pid = Some li ->
      result (langinfo_from_doctype db (Some pid) system_id) = Ok (Some li))
  /\ (forall pid system_id,
         _li_from_doctype_public_id (tables_in_use db) !! pid = None ->
         result (langinfo_from_doctype db (Some pid) system_id)
         = Ok (system_id ≫= fun sid =>
                 _li_from_doctype_system_id (tables_in_use db) !! sid))
  /\ (forall system_id,
         result (langinfo_from_doctype db None system_id)
         = Ok (system_id ≫= fun sid =>
                 _li_from_doctype_system_id (tables_in_use db) !! sid)).
Proof.
  unfold langinfo_from_doctype, tables_in_use.
  destruct (ensure_tables db) as [[t db'] log]. cbn [fst result].
  split; [|split].
  - intros pid system_id li Hpid. now rewrite Hpid.
  - intros pid system_id Hpid. rewrite Hpid. now destruct system_id.
  - intros system_id. now destruct system_id.
Qed.

Lemma doctype_scenario :
  _li_from_doctype_system_id (tables_in_use (H := Samples.linux) Samples.xy_db)
    !! "S1" = Some Samples.Y
  /\ Samples.X <> Samples.Y
  /\ result (langinfo_from_doctype (H := Samples.linux) Samples.xy_db
               (Some "P1") (Some "S1"))
     = Ok (Some Samples.X).
Proof.
  split; [vm_compute; reflexivity|].
  split; [intros Heq; apply (f_equal name) in Heq; discriminate Heq|].
  apply (proj1 (doctype_public_id_takes_precedence (H := Samples.linux)
                  Samples.xy_db) "P1" (Some "S1") Samples.X).
  vm_compute. reflexivity.
Defined.

(** *** Misses *)

Lemma re_dict_entry_In d id entry :
  re_dict_entry d id = Some entry -> In entry d.
Proof.
  induction d as [|[pat li] d IH]; simpl; [discriminate|].
  destruct (Z.eqb id (re_id pat)); [intros [= <-]; now left | auto].
Qed.

Lemma re_dict_items_In `{PyRuntime} d entry :
  In entry (re_dict_items d) -> In entry d.
Proof.
  unfold re_dict_items. intros Hin. apply list_elem_of_In in Hin.
  apply list_elem_of_omap in Hin. destruct Hin as (id & _ & Hentry).
  now apply re_dict_entry_In in Hentry.
Qed.

Lemma no_filename_re_None `{PyRuntime} d filename :
  no_filename_re d filename ->
  first_filename_re (re_dict_items d) filename = None.
Proof.
  intros Hnone.
  assert (Forall (fun entry => re_search (fst entry) filename 0 = false)
            (re_dict_items d)) as Hitems.
  { apply List.Forall_forall. intros entry Hin.
    apply re_dict_items_In in Hin.
    now apply (proj1 (List.Forall_forall _ _) Hnone). }
  induction Hitems as [|[regex li] res Hhead _ IH]; [reflexivity|].
  cbn [first_filename_re]. cbn [fst] in Hhead. now rewrite Hhead.
Qed.

(** What each lookup answers when its tables have nothing for the key:
    the lookup by name raises exactly when the key is missing, the lookups
    through the tables answer [None]. For the magic numbers this covers a
    table whose entries are all passed over; an entry that fails is
    another matter. *)
Lemma lookups_miss_quietly `{PyRuntime}
    db lang ext filename head_bytes shebang_only public_id system_id emacs_mode :
  (dict_get (_langinfo_from_norm_lang db) (_norm_lang_from_lang lang) = None
   <-> langinfo_from_lang db lang = Raise LangInfoError)
  /\ (_langinfo_from_ext (tables_in_use db)
        !! (if case_insensitive_platform then lower ext else ext) = None ->
      result (langinfo_from_ext db ext) = Ok None)
  /\ (_langinfo_from_filename (tables_in_use db) !! filename = None ->
      no_filename_re (_langinfo_from_filename_re (tables_in_use db)) filename ->
      result (langinfo_from_filename db filename) = Ok None)
  /\ (Forall (misses head_bytes shebang_only) (_magic_table (tables_in_use db)) ->
      result (langinfo_from_magic db head_bytes shebang_only) = Ok None)
  /\ ((public_id ≫= fun pid =>
         _li_from_doctype_public_id (tables_in_use db) !! pid) = None ->
      (system_id ≫= fun sid =>
         _li_from_doctype_system_id (tables_in_use db) !! sid) = None ->
      result (langinfo_from_doctype db public_id system_id) = Ok None)
  /\ (_li_from_emacs_mode (tables_in_use db) !! emacs_mode = None ->
      dict_get (_langinfo_from_norm_lang db) (_norm_lang_from_lang emacs_mode)
      = None ->
      result (langinfo_from_emacs_mode db emacs_mode) = Ok None).
Proof.
  split; [|split; [|split; [|split; [|split]]]].
  - unfold langinfo_from_lang. destruct (dict_get _ _); split; congruence.
  - intros Hmiss. now rewrite langinfo_from_ext_result, Hmiss.
  - unfold langinfo_from_filename, tables_in_use.
    destruct (ensure_tables db) as [[t db'] log]. cbn [fst result].
    intros -> Hnone. f_equal. now apply no_filename_re_None.
  - intros Hmiss. rewrite langinfo_from_magic_result.
    now apply magic_scan_all_miss.
  - unfold langinfo_from_doctype, tables_in_use.
    destruct (ensure_tables db) as [[t db'] log]. cbn [fst result].
    intros Hpub Hsys.
    destruct public_id as [pid|]; cbn in Hpub; [rewrite Hpub|];
      destruct system_id as [sid|]; cbn in Hsys; now try rewrite Hsys.
  - pose proof (ensure_tables_catalog db) as Hcat.
    unfold langinfo_from_emacs_mode, tables_in_use.
    destruct (ensure_tables db) as [[t db'] log]. cbn [fst snd result] in *.
    intros -> Hname. now rewrite Hcat, Hname.
Qed.

(** C7. The code departs from the claim in the magic lookup. [Unsized]
    carries one magic number, [(0, "zz", 1)], whose struct format [struct]
    rejects. On the window ["hello"] nothing matches: the rule cannot hit,
    whatever [length] holds. The lookup reports the format and then reads
    the [length] it never assigned: it raises [UnboundLocalError] where
    the claim has it answer "no match". On the same database the lookup by
    name raises [LangInfoError] on a miss and the lookups by extension,
    file name, doctype and editor mode answer [None], as the claim
    says. *)
Theorem magic_miss_raises_on_unsized_struct_format :
  _magic_table (tables_in_use (H := Samples.linux) MoreSamples.unsized_db)
  = [([PInt 0; PStr "zz"; PInt 1], MoreSamples.Unsized)]
  /\ (forall length,
         step (probe (H := Samples.linux) "hello" false MoreSamples.Unsized
                 [PInt 0; PStr "zz"; PInt 1] length) <> Hit)
  /\ result (langinfo_from_magic (H := Samples.linux) MoreSamples.unsized_db
               "hello" false)
     = Raise UnboundLocalError
  /\ events (langinfo_from_magic (H := Samples.linux) MoreSamples.unsized_db
               "hello" false)
     = [WarnStructFormat "Unsized" "zz"]
  /\ langinfo_from_lang MoreSamples.unsized_db "Klingon" = Raise LangInfoError
  /\ result (langinfo_from_ext (H := Samples.linux) MoreSamples.unsized_db ".kl")
     = Ok None
  /\ result (langinfo_from_filename (H := Samples.linux) MoreSamples.unsized_db
               "Klingonfile")
     = Ok None
  /\ result (langinfo_from_doctype (H := Samples.linux) MoreSamples.unsized_db
               (Some "-//KL//DTD") (Some "kl.dtd"))
     = Ok None
  /\ result (langinfo_from_emacs_mode (H := Samples.linux)
               MoreSamples.unsized_db "kl-mode")
     = Ok None.
Proof.
  split; [vm_compute; reflexivity|].
  split.
  - intros [len|]; cbn; [|discriminate].
    destruct (Z.eqb _ len); discriminate.
  - repeat split; vm_compute; reflexivity.
Qed.

(** ** The module at work *)

Example widget_by_extension :
  result (langinfo_from_ext (H := Samples.linux) Samples.widget_db ".wdg")
  = Ok (Some Samples.Widget).
Proof. vm_compute. reflexivity. Qed.

Example readme_by_filename :
  result (langinfo_from_filename (H := Samples.linux) Samples.widget_db "README")
  = Ok (Some TextLangInfo).
Proof. vm_compute. reflexivity. Qed.

Example widget_by_shebang :
  result (langinfo_from_magic (H := Samples.linux) Samples.widget_db
            "#!/usr/bin/widget" true)
  = Ok (Some Samples.Widget).
Proof. vm_compute. reflexivity. Qed.

Example widget_by_layout :
  result (langinfo_from_magic (H := Samples.linux) Samples.widget_db
            Samples.cafebabe false)
  = Ok (Some Samples.Widget).
Proof. vm_compute. reflexivity. Qed.

Example widget_by_mode :
  result (langinfo_from_emacs_mode (H := Samples.linux) Samples.widget_db
            "widget-mode")
  = Ok (Some Samples.Widget)
  /\ result (langinfo_from_emacs_mode (H := Samples.linux) Samples.widget_db
               "TEXT")
     = Ok (Some TextLangInfo).
Proof. split; vm_compute; reflexivity. Qed.

Example widget_is_text :
  is_text 2 Samples.widget_db Samples.Widget = Ok true
  /\ is_text 1 Samples.widget_db Samples.Widget = Ok true.
Proof. split; reflexivity. Qed.

Example widget_inherits_patterns :
  conformant_attr 2 Samples.widget_db Samples.Widget "filename_patterns"
  = Ok (Some (APatterns [FnExact "README"; FnExact "COPYING";
                         FnExact "LICENSE"; FnExact "MANIFEST"]))
  /\ conformant_attr 2 Samples.widget_db Samples.Widget "default_encoding"
     = Ok None
  /\ conformant_attr 1 Samples.widget_db Samples.Widget "exts"
     = Ok (Some (AStrs [".wdg"])).
Proof. repeat split; reflexivity. Qed.

Example lookups_cache_the_tables :
  _tables (state (langinfo_from_ext (H := Samples.linux) Samples.widget_db ".wdg"))
  = Some (fst (_build_tables (H := Samples.linux) Samples.widget_db)).
Proof.
  unfold langinfo_from_ext.
  rewrite (ensure_tables_fresh (H := Samples.linux) Samples.widget_db eq_refl).
  reflexivity.
Qed.

(** * Further properties of the module *)

(** ** Assembling and reading the catalogue *)

Lemma dict_get_In {V} (d : PyDict V) k :
  In k (map fst d) <-> dict_get d k <> None.
Proof.
  induction d as [|[k' v'] d IH]; simpl; [tauto|].
  destruct (String.eqb_spec k k') as [->|Hne].
  - split; [discriminate | auto].
  - rewrite <- IH. split; [intros [Heq|Hin]; [congruence | assumption] | auto].
Qed.

Lemma dict_set_keys {V} (d : PyDict V) k v :
  map fst (dict_set d k v)
  = match dict_get d k with
    | Some _ => map fst d
    | None => map fst d ++ [k]
    end.
Proof.
  induction d as [|[k' v'] d IH]; simpl; [reflexivity|].
  destruct (String.eqb k k'); simpl; [reflexivity|].
  rewrite IH. now destruct (dict_get d k).
Qed.

Lemma dict_set_NoDup {V} (d : PyDict V) k v :
  List.NoDup (map fst d) -> List.NoDup (map fst (dict_set d k v)).
Proof.
  intros Hnodup. rewrite dict_set_keys.
  destruct (dict_get d k) eqn:Hget; [assumption|].
  assert (~ In k (map fst d)) as Hfresh
    by (intros Hin; apply dict_get_In in Hin; congruence).
  revert Hnodup Hfresh. generalize (map fst d). intros keys.
  induction keys as [|k' keys IH]; simpl; intros Hnodup Hfresh.
  - constructor; [intros [] | constructor].
  - inversion Hnodup as [|? ? Hnotin Hrest]; subst.
    constructor; [|apply IH; tauto].
    rewrite in_app_iff. simpl. intros [Hin|[Heq|[]]]; [tauto|].
    apply Hfresh. now left.
Qed.

Lemma register_keyed_by_name db li :
  keyed_by_name (_langinfo_from_norm_lang db) ->
  keyed_by_name (_langinfo_from_norm_lang (register db li)).
Proof.
  intros Hdb k li'. unfold register, _norm_lang_from_lang.
  cbn [_langinfo_from_norm_lang].
  destruct (String.eqb_spec (lower (name li)) k) as [<-|Hne].
  - rewrite dict_get_set_eq. now intros [= <-].
  - rewrite dict_get_set_ne by assumption. apply Hdb.
Qed.

(** What every registration keeps holds of every database the
    constructor can build. *)
Lemma load_dir_keeps (P : Database -> Prop) :
  (forall db li, P db -> P (register db li)) ->
  forall units db, P db -> P (_load_dir db units).
Proof.
  intros Hreg units. unfold _load_dir.
  induction units as [|[classes|] units IH]; intros db Hdb; simpl;
    [assumption | | now apply IH].
  apply IH. clear IH. revert db Hdb.
  induction classes as [|li classes IHc]; intros db Hdb; simpl; auto.
Qed.

Lemma fold_load_dir_keeps (P : Database -> Prop) :
  (forall db li, P db -> P (register db li)) ->
  forall all db, P db -> P (fold_left _load_dir all db).
Proof.
  intros Hreg all.
  induction all as [|units all IH]; intros db Hdb; simpl; [assumption|].
  apply IH. now apply load_dir_keeps.
Qed.

Lemma Database_init_keeps (P : Database -> Prop) :
  (forall db li, P db -> P (register db li)) ->
  P {| _langinfo_from_norm_lang := []; _tables := None |} ->
  forall builtin_dir dirs, P (Database_init builtin_dir dirs).
Proof.
  intros Hreg Hempty builtin_dir dirs. unfold Database_init, _load.
  apply fold_load_dir_keeps; [assumption|]. now apply Hreg.
Qed.

Lemma langinfo_from_lang_register_other db li lang :
  lower lang <> lower (name li) ->
  langinfo_from_lang (register db li) lang = langinfo_from_lang db lang.
Proof.
  intros Hne. unfold langinfo_from_lang, register, _norm_lang_from_lang.
  cbn [_langinfo_from_norm_lang]. rewrite dict_get_set_ne; [reflexivity|].
  congruence.
Qed.

Lemma Database_init_keyed_by_name builtin_dir dirs :
  keyed_by_name (_langinfo_from_norm_lang (Database_init builtin_dir dirs)).
Proof.
  apply (Database_init_keeps
           (fun db => keyed_by_name (_langinfo_from_norm_lang db)));
    [apply register_keyed_by_name | intros k li; discriminate].
Qed.

Lemma Database_init_answers_the_name builtin_dir dirs lang li :
  langinfo_from_lang (Database_init builtin_dir dirs) lang = Ok li ->
  lower (name li) = lower lang.
Proof.
  unfold langinfo_from_lang, _norm_lang_from_lang.
  destruct (dict_get _ _) as [li'|] eqn:Hget; [|discriminate].
  intros [= <-]. symmetry. now apply (Database_init_keyed_by_name builtin_dir dirs).
Qed.

(** X1. Registering a descriptor and looking it up: any spelling that
    lower-cases to the descriptor's lower-cased name finds it, and every
    other name resolves as it did before. *)
Theorem register_then_lookup db li lang :
  (lower lang = lower (name li) ->
   langinfo_from_lang (register db li) lang = Ok li)
  /\ (lower lang <> lower (name li) ->
      langinfo_from_lang (register db li) lang = langinfo_from_lang db lang).
Proof.
  split; [apply langinfo_from_lang_register
         | apply langinfo_from_lang_register_other].
Qed.

Lemma register_then_lookup_perl :
  langinfo_from_lang (register Samples.text_db MoreSamples.Perl) "PERL"
  = Ok MoreSamples.Perl
  /\ langinfo_from_lang (register Samples.text_db MoreSamples.Perl) "text"
     = Ok TextLangInfo.
Proof.
  destruct (register_then_lookup Samples.text_db MoreSamples.Perl "PERL")
    as [Hsame _].
  destruct (register_then_lookup Samples.text_db MoreSamples.Perl "text")
    as [_ Hother].
  split; [apply Hsame; reflexivity|].
  rewrite Hother; [reflexivity | discriminate].
Defined.

(** X2. Whatever the directories hold, the database the constructor
    builds keeps one entry per key, each descriptor under the lower-cased
    form of its own name; so a lookup by name answers with a descriptor
    whose name is the one asked for, up to case. *)
Theorem catalogue_is_keyed_by_lowercase_name builtin_dir dirs :
  List.NoDup (map fst (_langinfo_from_norm_lang (Database_init builtin_dir dirs)))
  /\ keyed_by_name (_langinfo_from_norm_lang (Database_init builtin_dir dirs))
  /\ (forall lang li,
         langinfo_from_lang (Database_init builtin_dir dirs) lang = Ok li ->
         lower (name li) = lower lang).
Proof.
  split; [|split].
  - apply (Database_init_keeps
             (fun db => List.NoDup (map fst (_langinfo_from_norm_lang db))));
      [intros db li; apply dict_set_NoDup | constructor].
  - apply Database_init_keyed_by_name.
  - intros lang li. apply Database_init_answers_the_name.
Qed.

Lemma catalogue_answers_the_name_asked :
  langinfo_from_lang (Database_init MoreSamples.broken_units []) "perl"
  = Ok MoreSamples.PERL
  /\ lower (name MoreSamples.PERL) = lower "perl".
Proof.
  split; [reflexivity|].
  apply (proj2 (proj2 (catalogue_is_keyed_by_lowercase_name
                         MoreSamples.broken_units []))
           "perl" MoreSamples.PERL).
  reflexivity.
Defined.

Lemma register_keeps_known db li lang :
  (exists li', langinfo_from_lang db lang = Ok li') ->
  exists li', langinfo_from_lang (register db li) lang = Ok li'.
Proof.
  intros Hknown.
  destruct (String.eqb_spec (lower lang) (lower (name li))) as [Heq|Hne].
  - exists li. now apply langinfo_from_lang_register.
  - now rewrite langinfo_from_lang_register_other.
Qed.

Lemma fold_register_knows classes :
  forall db li,
    In li classes ->
    exists li', langinfo_from_lang (fold_left register classes db) (name li)
                = Ok li'.
Proof.
  induction classes as [|c classes IH]; intros db li; [intros []|].
  intros [->|Hin]; simpl; [|now apply IH].
  assert (exists li', langinfo_from_lang (register db li) (name li) = Ok li')
    as Hnow by (exists li; now apply langinfo_from_lang_register).
  revert Hnow. generalize (register db li). clear.
  induction classes as [|c classes IH]; intros db Hdb; simpl; [assumption|].
  apply IH. now apply register_keeps_known.
Qed.

Lemma load_dir_knows units :
  forall db classes li,
    In (Some classes) units -> In li classes ->
    exists li', langinfo_from_lang (_load_dir db units) (name li) = Ok li'.
Proof.
  induction units as [|unit units IH]; intros db classes li; [intros []|].
  intros [->|Hin] Hli.
  - change (_load_dir db (Some classes :: units))
      with (_load_dir (fold_left register classes db) units).
    apply (load_dir_keeps
             (fun db => exists li', langinfo_from_lang db (name li) = Ok li')).
    + intros db' li0. apply register_keeps_known.
    + now apply fold_register_knows.
  - destruct unit as [cs|]; simpl; eapply IH; eauto.
Qed.

Lemma fold_load_dir_knows all :
  forall db units classes li,
    In units all -> In (Some classes) units -> In li classes ->
    exists li', langinfo_from_lang (fold_left _load_dir all db) (name li)
                = Ok li'.
Proof.
  induction all as [|us all IH]; intros db units classes li; [intros []|].
  intros [->|Hin] Hclasses Hli; simpl.
  - apply (fold_load_dir_keeps
             (fun db => exists li', langinfo_from_lang db (name li) = Ok li')).
    + intros db' li0. apply register_keeps_known.
    + eapply load_dir_knows; eauto.
  - eapply IH; eauto.
Qed.

Lemma register_all_named classes :
  forall db,
    forallb (fun c => match c with Named _ => true | Nameless => false end)
      classes = true ->
    register_all db classes = Ok (fold_left register (omap named classes) db).
Proof.
  induction classes as [|[li|] classes IH]; intros db; simpl;
    [reflexivity | apply IH | discriminate].
Qed.

Lemma register_all_nameless classes :
  forall db,
    forallb (fun c => match c with Named _ => true | Nameless => false end)
      classes = false ->
    register_all db classes = Raise AttributeError.
Proof.
  induction classes as [|[li|] classes IH]; intros db; simpl;
    [discriminate | apply IH | reflexivity].
Qed.

Lemma load_dir_found_named units :
  forall db,
    all_named [units] = true ->
    _load_dir_found db units = Ok (_load_dir db (map named_unit units)).
Proof.
  unfold all_named. cbn [forallb]. rewrite andb_true_r.
  induction units as [|[classes|] units IH]; intros db; cbn [forallb];
    [reflexivity | | apply IH].
  rewrite andb_true_iff. intros [Hclasses Hunits].
  cbn [_load_dir_found]. rewrite register_all_named by assumption.
  now rewrite IH.
Qed.

Lemma load_dir_found_nameless units :
  forall db,
    all_named [units] = false ->
    _load_dir_found db units = Raise AttributeError.
Proof.
  unfold all_named. cbn [forallb]. rewrite andb_true_r.
  induction units as [|[classes|] units IH]; intros db; cbn [forallb];
    [discriminate | | apply IH].
  cbn [_load_dir_found].
  destruct (forallb _ classes) eqn:Hclasses; cbn [andb].
  - rewrite register_all_named by assumption. apply IH.
  - intros _. now rewrite register_all_nameless.
Qed.

Lemma all_named_cons units dirs :
  all_named (units :: dirs) = all_named [units] && all_named dirs.
Proof. unfold all_named. cbn [forallb]. now rewrite andb_true_r. Qed.

Lemma load_dirs_found_named dirs :
  forall db,
    all_named dirs = true ->
    load_dirs_found db dirs
    = Ok (fold_left _load_dir (map (map named_unit) dirs) db).
Proof.
  induction dirs as [|units dirs IH]; intros db; [reflexivity|].
  rewrite all_named_cons, andb_true_iff. intros [Hunits Hdirs].
  cbn [load_dirs_found]. rewrite load_dir_found_named by assumption.
  now rewrite IH.
Qed.

Lemma load_dirs_found_nameless dirs :
  forall db,
    all_named dirs = false ->
    load_dirs_found db dirs = Raise AttributeError.
Proof.
  induction dirs as [|units dirs IH]; intros db; [discriminate|].
  rewrite all_named_cons. cbn [load_dirs_found].
  destruct (all_named [units]) eqn:Hunits; cbn [andb].
  - rewrite load_dir_found_named by assumption. apply IH.
  - intros _. now rewrite load_dir_found_nameless.
Qed.

Lemma Database_new_named builtin_dir dirs :
  all_named (builtin_dir :: dirs) = true ->
  Database_new builtin_dir dirs
  = Ok (Database_init (map named_unit builtin_dir)
          (map (map named_unit) dirs)).
Proof.
  intros Hnamed. unfold Database_new, Database_init.
  now rewrite load_dirs_found_named.
Qed.

Lemma found_class_resolves builtin_dir dirs li :
  found_class builtin_dir dirs li ->
  exists li',
    langinfo_from_lang
      (Database_init (map named_unit builtin_dir) (map (map named_unit) dirs))
      (name li) = Ok li'
    /\ lower (name li') = lower (name li).
Proof.
  intros Hfound.
  assert (exists li',
             langinfo_from_lang
               (Database_init (map named_unit builtin_dir)
                  (map (map named_unit) dirs)) (name li) = Ok li')
    as [li' Hli'].
  { destruct Hfound as [->|(units & classes & Hunits & Hclasses & Hli)];
      unfold Database_init, _load.
    - apply (fold_load_dir_keeps
               (fun db => exists li',
                    langinfo_from_lang db (name TextLangInfo) = Ok li')).
      + intros db li0. apply register_keeps_known.
      + exists TextLangInfo. now apply langinfo_from_lang_register.
    - apply (fold_load_dir_knows _ _ (map named_unit units)
               (omap named classes) li).
      + change (map named_unit builtin_dir :: map (map named_unit) dirs)
          with (map (map named_unit) (builtin_dir :: dirs)).
        now apply in_map.
      + change (Some (omap named classes)) with (named_unit (Some classes)).
        now apply in_map.
      + apply list_elem_of_In. apply list_elem_of_omap. exists (Named li).
        split; [now apply list_elem_of_In | reflexivity]. }
  exists li'. split; [assumption|].
  now apply (Database_init_answers_the_name _ _ _ _ Hli').
Qed.

(** X3. When every class of every unit that imports sets its name, the
    constructor succeeds, units whose import fails notwithstanding, and
    every class it met can be looked up by its name: [TextLangInfo] and
    each class of each unit resolve, to themselves or to a class
    registered later under the same lower-cased name; the module-level
    [langinfo_from_lang] then answers for ["Text"] in any case. A class
    that leaves [name] at [None] is not skipped like a failed import: the
    constructor raises [AttributeError], and so does the module-level
    function, which keeps no database. *)
Theorem constructor_registers_named_classes builtin_dir dirs :
  (all_named (builtin_dir :: dirs) = true ->
   exists db,
     Database_new builtin_dir dirs = Ok db
     /\ (forall li,
            found_class builtin_dir dirs li ->
            exists li',
              langinfo_from_lang db (name li) = Ok li'
              /\ lower (name li') = lower (name li)))
  /\ (all_named (builtin_dir :: dirs) = false ->
      Database_new builtin_dir dirs = Raise AttributeError)
  /\ (all_named [builtin_dir] = true ->
      forall lang,
        lower lang = "text" ->
        exists li' db,
          default_langinfo_from_lang builtin_dir None lang = (Ok li', Some db)
          /\ lower (name li') = "text")
  /\ (all_named [builtin_dir] = false ->
      forall lang,
        default_langinfo_from_lang builtin_dir None lang
        = (Raise AttributeError, None)).
Proof.
  split; [|split; [|split]].
  - intros Hnamed. eexists. split; [now apply Database_new_named|].
    apply found_class_resolves.
  - intros Hnameless. unfold Database_new. now apply load_dirs_found_nameless.
  - intros Hnamed lang Hlang.
    destruct (found_class_resolves builtin_dir [] TextLangInfo
                (or_introl eq_refl)) as (li' & Hres & Hname).
    exists li'. eexists.
    unfold default_langinfo_from_lang, _get_default_database.
    rewrite Database_new_named by assumption.
    split; [|exact Hname].
    f_equal. unfold langinfo_from_lang, _norm_lang_from_lang in *.
    now rewrite Hlang.
  - intros Hnameless lang.
    unfold default_langinfo_from_lang, _get_default_database, Database_new.
    now rewrite load_dirs_found_nameless.
Qed.

Lemma constructor_on_found_units :
  (exists db,
      Database_new MoreSamples.found_units [] = Ok db
      /\ (forall li,
             found_class MoreSamples.found_units [] li ->
             exists li',
               langinfo_from_lang db (name li) = Ok li'
               /\ lower (name li') = lower (name li)))
  /\ Database_new MoreSamples.nameless_units [] = Raise AttributeError.
Proof.
  split.
  - apply (proj1 (constructor_registers_named_classes
                    MoreSamples.found_units [])).
    reflexivity.
  - apply (proj1 (proj2 (constructor_registers_named_classes
                           MoreSamples.nameless_units []))).
    reflexivity.
Defined.

(** ** How the tables are filled *)

Section TableReadingFacts.
Context `{PyRuntime}.

Lemma fold_claim_lookup claims :
  forall (m : gmap string LangInfo) k,
    fold_left claim claims m !! k
    = match last_claim k claims with
      | Some li => Some li
      | None => m !! k
      end.
Proof.
  induction claims as [|[k' li] claims IH]; intros m k; simpl; [reflexivity|].
  rewrite IH. destruct (last_claim k claims); [reflexivity|].
  unfold claim. cbn [fst snd]. rewrite lookup_insert.
  destruct (String.eqb_spec k' k); case_decide; congruence.
Qed.


Lemma last_claim_None k claims :
  last_claim k claims = None <-> forall li, ~ In (k, li) claims.
Proof.
  induction claims as [|[k' li'] claims IH]; simpl; [tauto|].
  destruct (last_claim k claims) as [later|] eqn:Hrest.
  - split; [discriminate|]. intros Hnone. exfalso.
    assert (Some later = None) as Habs; [|discriminate].
    apply IH. intros li Hin. apply (Hnone li). now right.
  - destruct (String.eqb_spec k' k) as [->|Hne].
    + split; [discriminate|]. intros Hnone. exfalso. apply (Hnone li'). now left.
    + split; [|reflexivity]. intros _ li [[= ? ?]|Hin]; [congruence|].
      destruct IH as [IH _]. now apply (IH eq_refl li).
Qed.

Lemma fold_keeps_proj {X A} (p : Tables -> X) (f : Build -> A -> Build) :
  (forall b x, p (fst (f b x)) = p (fst b)) ->
  forall l b, p (fst (fold_left f l b)) = p (fst b).
Proof.
  intros Hstep l. induction l as [|x l IH]; intros b; simpl; [reflexivity|].
  now rewrite IH.
Qed.

Lemma fold_claims_proj {A} (p : Tables -> gmap string LangInfo)
    (f : Build -> A -> Build) (cl : A -> list Claim) :
  (forall b x, p (fst (f b x)) = fold_left claim (cl x) (p (fst b))) ->
  forall l b,
    p (fst (fold_left f l b)) = fold_left claim (flat_map cl l) (p (fst b)).
Proof.
  intros Hstep l. induction l as [|x l IH]; intros b; simpl; [reflexivity|].
  now rewrite IH, Hstep, fold_left_app.
Qed.

Lemma fold_index_claims (p : Tables -> gmap string LangInfo)
    (per_li : LangInfo -> list Claim) :
  (forall b li,
      p (fst (index_langinfo b li)) = fold_left claim (per_li li) (p (fst b))) ->
  forall lis b,
    p (fst (fold_left index_langinfo lis b))
    = fold_left claim (flat_map per_li lis) (p (fst b)).
Proof.
  intros Hstep lis. induction lis as [|li lis IH]; intros b; simpl;
    [reflexivity|].
  now rewrite IH, Hstep, fold_left_app.
Qed.

(** The loops of [_build_tables], one table at a time. *)
Ltac one_step :=
  first
    [ solve [intros [? ?] ?; reflexivity]
    | solve [intros [? ?] [?|?]; reflexivity]
    | let dt := fresh "dt" in
      intros [? ?] dt; destruct dt as [|? [|? [|? [|? [|? ?]]]]];
      try reflexivity; cbn; repeat (destruct (truthy_id _)); reflexivity ].

Lemma index_langinfo_ext b li :
  _langinfo_from_ext (fst (index_langinfo b li))
  = fold_left claim (flat_map (ext_claim li) (items (exts li)))
      (_langinfo_from_ext (fst b)).
Proof.
  unfold index_langinfo.
  rewrite (fold_keeps_proj _langinfo_from_ext (add_emacs_mode li)) by one_step.
  rewrite (fold_keeps_proj _langinfo_from_ext (add_doctype li)) by one_step.
  rewrite (fold_keeps_proj _langinfo_from_ext (add_magic_number li)) by one_step.
  rewrite (fold_keeps_proj _langinfo_from_ext (add_filename_pattern li))
    by one_step.
  apply fold_claims_proj. one_step.
Qed.

Lemma index_langinfo_filename b li :
  _langinfo_from_filename (fst (index_langinfo b li))
  = fold_left claim
      (flat_map (filename_claim li) (items (filename_patterns li)))
      (_langinfo_from_filename (fst b)).
Proof.
  unfold index_langinfo.
  rewrite (fold_keeps_proj _langinfo_from_filename (add_emacs_mode li))
    by one_step.
  rewrite (fold_keeps_proj _langinfo_from_filename (add_doctype li))
    by one_step.
  rewrite (fold_keeps_proj _langinfo_from_filename (add_magic_number li))
    by one_step.
  rewrite (fold_claims_proj _langinfo_from_filename (add_filename_pattern li)
             (filename_claim li)) by one_step.
  now rewrite (fold_keeps_proj _langinfo_from_filename (add_ext li))
    by one_step.
Qed.

Lemma index_langinfo_public_id b li :
  _li_from_doctype_public_id (fst (index_langinfo b li))
  = fold_left claim (flat_map (public_id_claim li) (items (doctypes li)))
      (_li_from_doctype_public_id (fst b)).
Proof.
  unfold index_langinfo.
  rewrite (fold_keeps_proj _li_from_doctype_public_id (add_emacs_mode li))
    by one_step.
  rewrite (fold_claims_proj _li_from_doctype_public_id (add_doctype li)
             (public_id_claim li)) by one_step.
  rewrite (fold_keeps_proj _li_from_doctype_public_id (add_magic_number li))
    by one_step.
  rewrite (fold_keeps_proj _li_from_doctype_public_id (add_filename_pattern li))
    by one_step.
  now rewrite (fold_keeps_proj _li_from_doctype_public_id (add_ext li))
    by one_step.
Qed.

Lemma index_langinfo_system_id b li :
  _li_from_doctype_system_id (fst (index_langinfo b li))
  = fold_left claim (flat_map (system_id_claim li) (items (doctypes li)))
      (_li_from_doctype_system_id (fst b)).
Proof.
  unfold index_langinfo.
  rewrite (fold_keeps_proj _li_from_doctype_system_id (add_emacs_mode li))
    by one_step.
  rewrite (fold_claims_proj _li_from_doctype_system_id (add_doctype li)
             (system_id_claim li)) by one_step.
  rewrite (fold_keeps_proj _li_from_doctype_system_id (add_magic_number li))
    by one_step.
  rewrite (fold_keeps_proj _li_from_doctype_system_id (add_filename_pattern li))
    by one_step.
  now rewrite (fold_keeps_proj _li_from_doctype_system_id (add_ext li))
    by one_step.
Qed.

Lemma index_langinfo_mode b li :
  _li_from_emacs_mode (fst (index_langinfo b li))
  = fold_left claim (flat_map (mode_claim li) (items (emacs_modes li)))
      (_li_from_emacs_mode (fst b)).
Proof.
  unfold index_langinfo.
  rewrite (fold_claims_proj _li_from_emacs_mode (add_emacs_mode li)
             (mode_claim li)) by one_step.
  rewrite (fold_keeps_proj _li_from_emacs_mode (add_doctype li)) by one_step.
  rewrite (fold_keeps_proj _li_from_emacs_mode (add_magic_number li))
    by one_step.
  rewrite (fold_keeps_proj _li_from_emacs_mode (add_filename_pattern li))
    by one_step.
  now rewrite (fold_keeps_proj _li_from_emacs_mode (add_ext li)) by one_step.
Qed.

(** Each table of a fresh build, read off the descriptors. *)
Lemma build_tables_read db k :
  _langinfo_from_ext (fst (_build_tables db)) !! k
  = last_claim k (ext_claims (langinfos db))
  /\ _langinfo_from_filename (fst (_build_tables db)) !! k
     = last_claim k (filename_claims (langinfos db))
  /\ _li_from_doctype_public_id (fst (_build_tables db)) !! k
     = last_claim k (public_id_claims (langinfos db))
  /\ _li_from_doctype_system_id (fst (_build_tables db)) !! k
     = last_claim k (system_id_claims (langinfos db))
  /\ _li_from_emacs_mode (fst (_build_tables db)) !! k
     = last_claim k (mode_claims (langinfos db)).
Proof.
  unfold _build_tables, langinfos.
  rewrite (fold_index_claims _langinfo_from_ext _ index_langinfo_ext).
  rewrite (fold_index_claims _langinfo_from_filename _ index_langinfo_filename).
  rewrite (fold_index_claims _li_from_doctype_public_id _
             index_langinfo_public_id).
  rewrite (fold_index_claims _li_from_doctype_system_id _
             index_langinfo_system_id).
  rewrite (fold_index_claims _li_from_emacs_mode _ index_langinfo_mode).
  rewrite !fold_claim_lookup. cbn [fst empty_tables
    _langinfo_from_ext _langinfo_from_filename _li_from_doctype_public_id
    _li_from_doctype_system_id _li_from_emacs_mode].
  rewrite !lookup_empty.
  unfold ext_claims, filename_claims, public_id_claims, system_id_claims,
    mode_claims.
  repeat split; match goal with |- context [last_claim ?k ?c] =>
                                  now destruct (last_claim k c) end.
Qed.

Lemma tables_in_use_fresh db :
  _tables db = None -> tables_in_use db = fst (_build_tables db).
Proof.
  intros Hnone. unfold tables_in_use. now rewrite ensure_tables_fresh.
Qed.

End TableReadingFacts.

Section TableLookups.
Context `{PyRuntime}.

Lemma doctype_public_id_takes_precedence_aux db :
  (forall pid system_id li,
      _li_from_doctype_public_id (tables_in_use db) !! pid = Some li ->
      result (langinfo_from_doctype db (Some pid) system_id) = Ok (Some li))
  /\ (forall pid system_id,
         _li_from_doctype_public_id (tables_in_use db) !! pid = None ->
         result (langinfo_from_doctype db (Some pid) system_id)
         = Ok (system_id ≫= fun sid =>
                 _li_from_doctype_system_id (tables_in_use db) !! sid))
  /\ (forall system_id,
         result (langinfo_from_doctype db None system_id)
         = Ok (system_id ≫= fun sid =>
                 _li_from_doctype_system_id (tables_in_use db) !! sid)).
Proof.
  unfold langinfo_from_doctype, tables_in_use.
  destruct (ensure_tables db) as [[t db'] log]. cbn [fst result].
  split; [|split].
  - intros pid system_id li Hpid. now rewrite Hpid.
  - intros pid system_id Hpid. rewrite Hpid. now destruct system_id.
  - intros system_id. now destruct system_id.
Qed.

Lemma ensure_tables_built db :
  ensure_tables (built db) = (tables_in_use db, built db, []).
Proof.
  unfold built, tables_in_use, ensure_tables.
  destruct (_tables db) as [t|] eqn:Htables; cbn [fst snd].
  - now rewrite Htables.
  - now destruct (_build_tables db) as [t log].
Qed.

Lemma built_tables db : _tables (built db) = Some (tables_in_use db).
Proof.
  unfold built, tables_in_use, ensure_tables.
  destruct (_tables db) as [t|] eqn:Ht; cbn [fst snd]; [assumption|].
  now destruct (_build_tables db).
Qed.


(** X4. On a database whose tables are not built yet, the lookup by
    extension answers with the last descriptor, in the order [values()]
    yields them and each one's [exts] in the order written, that lists the
    extension (case-folded on win32 and darwin); [None] when none does. A
    missing leading dot changes nothing to that. *)
Theorem extension_lookup_answers_last_claimant db ext :
  _tables db = None ->
  result (langinfo_from_ext db ext)
  = Ok (last_claim (platform_case ext) (ext_claims (langinfos db))).
Proof.
  intros Hfresh. rewrite langinfo_from_ext_result, tables_in_use_fresh
    by assumption.
  f_equal. apply build_tables_read.
Qed.

Lemma doctype_lookup_answers_last_claimant_aux db public_id system_id :
  _tables db = None ->
  result (langinfo_from_doctype db public_id system_id)
  = Ok (match public_id ≫= fun pid =>
                last_claim pid (public_id_claims (langinfos db)) with
        | Some li => Some li
        | None => system_id ≫= fun sid =>
                    last_claim sid (system_id_claims (langinfos db))
        end).
Proof.
  intros Hfresh.
  assert (forall k,
             _li_from_doctype_public_id (tables_in_use db) !! k
             = last_claim k (public_id_claims (langinfos db))) as Hpub
    by (intros k; rewrite tables_in_use_fresh by assumption;
        apply build_tables_read).
  assert (forall k,
             _li_from_doctype_system_id (tables_in_use db) !! k
             = last_claim k (system_id_claims (langinfos db))) as Hsys
    by (intros k; rewrite tables_in_use_fresh by assumption;
        apply build_tables_read).
  destruct (doctype_public_id_takes_precedence_aux db) as (H1 & H2 & H3).
  destruct public_id as [pid|]; cbn.
  - rewrite <- Hpub.
    destruct (_li_from_doctype_public_id (tables_in_use db) !! pid) eqn:Hpid.
    + now apply H1.
    + rewrite (H2 _ system_id Hpid). f_equal.
      destruct system_id; cbn; [apply Hsys | reflexivity].
  - rewrite H3. f_equal. destruct system_id; cbn; [apply Hsys | reflexivity].
Qed.

(** X5. On such a database the lookup by doctype answers with the last
    descriptor that lists the public id in a four-item doctype tuple, and
    failing that with the last one that lists the system id: the last
    claim wins, as the docstring says of the current implementation. *)
Theorem doctype_lookup_answers_last_claimant db public_id system_id :
  _tables db = None ->
  result (langinfo_from_doctype db public_id system_id)
  = Ok (match public_id ≫= fun pid =>
                last_claim pid (public_id_claims (langinfos db)) with
        | Some li => Some li
        | None => system_id ≫= fun sid =>
                    last_claim sid (system_id_claims (langinfos db))
        end).
Proof. apply doctype_lookup_answers_last_claimant_aux. Qed.

Lemma public_id_claims_nonempty lis li :
  ~ In (EmptyString, li) (public_id_claims lis)
  /\ ~ In (EmptyString, li) (system_id_claims lis).
Proof.
  unfold public_id_claims, system_id_claims.
  split; intros Hin; apply in_flat_map in Hin;
    destruct Hin as (li' & _ & Hin); apply in_flat_map in Hin;
    destruct Hin as (dt & _ & Hin);
    destruct dt as [|? [|? [|pid [|sid [|? ?]]]]]; try contradiction;
    cbn in Hin.
  - destruct pid as [[|c s]|]; cbn in Hin; [tauto | | tauto].
    destruct Hin as [[= ? ?]|[]].
  - destruct sid as [[|c s]|]; cbn in Hin; [tauto | | tauto].
    destruct Hin as [[= ? ?]|[]].
Qed.

(** X6. An id that is absent or empty never matches: [_build_tables]
    stores an id only when it is truthy, so on a database whose tables are
    not built yet a doctype lookup with no usable id answers [None], even
    when descriptors declare empty ids. *)
Theorem empty_doctype_ids_never_match db public_id system_id :
  _tables db = None ->
  truthy_id public_id = None ->
  truthy_id system_id = None ->
  result (langinfo_from_doctype db public_id system_id) = Ok None.
Proof.
  intros Hfresh Hpub Hsys.
  rewrite doctype_lookup_answers_last_claimant_aux by assumption.
  assert (forall id claims,
             truthy_id id = None ->
             (forall li, ~ In (EmptyString, li) claims) ->
             (id ≫= fun k => last_claim k claims) = None) as Hnone.
  { intros [[|c s]|] claims Hid Hclaims; cbn in *; try discriminate;
      [|reflexivity].
    now apply last_claim_None. }
  rewrite (Hnone public_id), (Hnone system_id); try assumption; try reflexivity;
    intros li; apply public_id_claims_nonempty.
Qed.

(** X7. On a database whose tables are not built yet, the lookup by
    editor mode answers with the last descriptor that lists the mode among
    its [emacs_modes]; when none does, the mode is read as a language name
    and the answer is the one [langinfo_from_lang] gives, with [None] in
    place of the exception. *)
Theorem mode_lookup_alias_then_name db emacs_mode :
  _tables db = None ->
  result (langinfo_from_emacs_mode db emacs_mode)
  = Ok (match last_claim emacs_mode (mode_claims (langinfos db)) with
        | Some li => Some li
        | None =>
            match langinfo_from_lang db emacs_mode with
            | Ok li => Some li
            | Raise _ => None
            end
        end).
Proof.
  intros Hfresh.
  pose proof (ensure_tables_catalog db) as Hcat.
  assert (_li_from_emacs_mode (tables_in_use db) !! emacs_mode
          = last_claim emacs_mode (mode_claims (langinfos db))) as Hmode
    by (rewrite tables_in_use_fresh by assumption; apply build_tables_read).
  unfold langinfo_from_emacs_mode, tables_in_use in *.
  destruct (ensure_tables db) as [[t db'] log]. cbn [fst snd result] in *.
  rewrite Hmode. destruct (last_claim _ _); [reflexivity|].
  rewrite Hcat. unfold langinfo_from_lang.
  now destruct (dict_get _ _).
Qed.







(** X9. The tables are built by the first lookup and kept: each of the
    five lookups leaves the same database, with the descriptors untouched
    and the tables in place, and on that database every lookup gives the
    answer it gave before and logs nothing about building. *)
Theorem lookups_build_the_tables_once
    db ext filename head_bytes shebang_only public_id system_id emacs_mode :
  (state (langinfo_from_ext db ext) = built db
   /\ state (langinfo_from_filename db filename) = built db
   /\ state (langinfo_from_magic db head_bytes shebang_only) = built db
   /\ state (langinfo_from_doctype db public_id system_id) = built db
   /\ state (langinfo_from_emacs_mode db emacs_mode) = built db)
  /\ _langinfo_from_norm_lang (built db) = _langinfo_from_norm_lang db
  /\ _tables (built db) = Some (tables_in_use db)
  /\ langinfo_from_ext (built db) ext
     = {| result := result (langinfo_from_ext db ext);
          state := built db; events := [] |}
  /\ langinfo_from_filename (built db) filename
     = {| result := result (langinfo_from_filename db filename);
          state := built db; events := [] |}
  /\ langinfo_from_doctype (built db) public_id system_id
     = {| result := result (langinfo_from_doctype db public_id system_id);
          state := built db; events := [] |}
  /\ langinfo_from_emacs_mode (built db) emacs_mode
     = {| result := result (langinfo_from_emacs_mode db emacs_mode);
          state := built db; events := [] |}
  /\ result (langinfo_from_magic (built db) head_bytes shebang_only)
     = result (langinfo_from_magic db head_bytes shebang_only)
  /\ events (langinfo_from_magic db head_bytes shebang_only)
     = snd (ensure_tables db)
       ++ events (langinfo_from_magic (built db) head_bytes shebang_only).
Proof.
  pose proof (ensure_tables_built db) as Hbuilt.
  pose proof (ensure_tables_catalog db) as Hcat.
  pose proof (built_tables db) as Htables.
  unfold langinfo_from_ext, langinfo_from_filename, langinfo_from_magic,
    langinfo_from_doctype, langinfo_from_emacs_mode.
  rewrite Hbuilt. unfold built, tables_in_use in *.
  destruct (ensure_tables db) as [[t db'] log]. cbn [fst snd] in *.
  destruct (magic_scan head_bytes shebang_only (_magic_table t) None)
    as [r w].
  cbn [result state events app]. rewrite Hcat.
  repeat split; try reflexivity; assumption.
Qed.

(** X10. Nothing rebuilds the tables: a descriptor registered after the
    first lookup is found by name at once, while the lookup by extension
    goes on answering from the tables as they were built. *)
Theorem tables_are_not_rebuilt_after_registration db li ext :
  langinfo_from_lang (register (built db) li) (name li) = Ok li
  /\ langinfo_from_ext (register (built db) li) ext
     = {| result := result (langinfo_from_ext db ext);
          state := register (built db) li; events := [] |}.
Proof.
  split; [now apply langinfo_from_lang_register|].
  unfold langinfo_from_ext at 1.
  assert (ensure_tables (register (built db) li)
          = (tables_in_use db, register (built db) li, [])) as ->.
  { unfold ensure_tables.
    change (_tables (register (built db) li)) with (_tables (built db)).
    now rewrite built_tables. }
  now rewrite langinfo_from_ext_result.
Qed.

End TableLookups.


Lemma extension_lookup_on_rivals :
  result (langinfo_from_ext (H := Samples.linux) MoreSamples.rivals_db "inc")
  = Ok (Some MoreSamples.PHP).
Proof.
  etransitivity.
  - apply (extension_lookup_answers_last_claimant (H := Samples.linux)
             MoreSamples.rivals_db "inc").
    reflexivity.
  - vm_compute. reflexivity.
Defined.

Lemma doctype_lookup_on_rivals :
  result (langinfo_from_doctype (H := Samples.linux) MoreSamples.rivals_db
            (Some "x") (Some "S"))
  = Ok (Some MoreSamples.PHP).
Proof.
  etransitivity.
  - apply (doctype_lookup_answers_last_claimant (H := Samples.linux)
             MoreSamples.rivals_db (Some "x") (Some "S")).
    reflexivity.
  - vm_compute. reflexivity.
Defined.

Lemma empty_ids_on_rivals :
  result (langinfo_from_doctype (H := Samples.linux) MoreSamples.rivals_db
            (Some "") None)
  = Ok None.
Proof.
  apply (empty_doctype_ids_never_match (H := Samples.linux)
           MoreSamples.rivals_db (Some "") None);
    reflexivity.
Defined.

Lemma mode_lookup_on_rivals :
  result (langinfo_from_emacs_mode (H := Samples.linux) MoreSamples.rivals_db
            "text")
  = Ok (Some MoreSamples.PHP)
  /\ result (langinfo_from_emacs_mode (H := Samples.linux) MoreSamples.rivals_db
               "TEXT")
     = Ok (Some TextLangInfo).
Proof.
  split; (etransitivity;
          [apply (mode_lookup_alias_then_name (H := Samples.linux)); reflexivity
          | vm_compute; reflexivity]).
Defined.


Example registration_after_a_lookup_is_not_indexed :
  langinfo_from_lang
    (register (built (H := Samples.linux) Samples.text_db) MoreSamples.Perl)
    "perl"
  = Ok MoreSamples.Perl
  /\ result (langinfo_from_ext (H := Samples.linux)
               (register (built (H := Samples.linux) Samples.text_db)
                  MoreSamples.Perl) ".pl")
     = Ok None.
Proof. split; vm_compute; reflexivity. Qed.

(** ** More on magic numbers *)

Section MoreMagicFacts.
Context `{PyRuntime}.

Lemma probe_shebang_only head_bytes li mn length :
  length_after (probe head_bytes true li mn length) = length
  /\ warned (probe head_bytes true li mn length) = []
  /\ (regex_rule (mn, li) = false ->
      step (probe head_bytes true li mn length) = Miss)
  /\ (forall e, step (probe head_bytes true li mn length) = Fail e ->
                e = TypeError \/ e = AttributeError).
Proof.
  unfold regex_rule. cbn [fst].
  destruct mn as [|start [|format [|pattern [|? ?]]]];
    try (cbn; repeat split; intros; discriminate).
  cbn [probe andb].
  destruct (py_eq format (PStr "regex")) eqn:Hregex; cbn [negb].
  - destruct (py_eq format (PStr "string")).
    + destruct (py_len pattern), (as_int start);
        try destruct (py_eq _ pattern); cbn;
        repeat split; intros; try discriminate; injection H0 as <-; auto.
    + destruct pattern; try destruct (as_int start);
        try destruct (re_search _ _ _); cbn;
        repeat split; intros; try discriminate; injection H0 as <-; auto.
  - cbn. repeat split; intros; discriminate.
Qed.

Lemma magic_scan_shebang_only head_bytes :
  forall table length,
    magic_scan head_bytes true table length
    = magic_scan head_bytes true (List.filter regex_rule table) length
    /\ snd (magic_scan head_bytes true table length) = []
    /\ (forall e, fst (magic_scan head_bytes true table length) = Raise e ->
                  e = TypeError \/ e = AttributeError).
Proof.
  intros table; induction table as [|[mn li] table IH]; intros length.
  - repeat split; intros; discriminate.
  - destruct (probe_shebang_only head_bytes li mn length)
      as (Hlen & Hwarned & Hmiss & Hfail).
    destruct (IH length) as (IHscan & IHwarned & IHfail).
    cbn [List.filter].
    destruct (regex_rule (mn, li)) eqn:Hrule; cbn [magic_scan];
      rewrite Hwarned, Hlen.
    + destruct (step (probe head_bytes true li mn length)) eqn:Hstep.
      * repeat split; intros; discriminate.
      * rewrite <- IHscan.
        destruct (magic_scan head_bytes true table length) as [r w].
        cbn [fst snd app] in *. auto.
      * repeat split. intros e' [= <-]. now apply Hfail.
    + rewrite (Hmiss eq_refl). rewrite <- IHscan.
      destruct (magic_scan head_bytes true table length) as [r w].
      cbn [fst snd app] in *. subst w. auto.
Qed.

Lemma magic_scan_Some head_bytes shebang_only li :
  forall table length,
    fst (magic_scan head_bytes shebang_only table length) = Ok (Some li) ->
    exists mn length',
      In (mn, li) table
      /\ step (probe head_bytes shebang_only li mn length') = Hit.
Proof.
  intros table; induction table as [|[mn li'] table IH]; intros length;
    [discriminate|].
  cbn [magic_scan].
  destruct (step (probe head_bytes shebang_only li' mn length)) eqn:Hstep.
  - intros [= ->]. exists mn, length. split; [now left | assumption].
  - destruct (magic_scan head_bytes shebang_only table _) as [r w] eqn:Hscan.
    cbn [fst]. intros ->.
    destruct (IH (length_after (probe head_bytes shebang_only li' mn length)))
      as (mn' & length' & Hin & Hhit); [now rewrite Hscan|].
    exists mn', length'. split; [now right | assumption].
  - discriminate.
Qed.

(** X11. With [shebang_only] set the lookup probes the regex rules and
    nothing else: its answer is that of the scan over the regex entries of
    the table, it issues no warning, and the only exceptions it can raise
    are the [TypeError] and [AttributeError] of an ill-typed regex rule. *)
Theorem shebang_only_probes_regex_rules_only db head_bytes :
  result (langinfo_from_magic db head_bytes true)
  = fst (magic_scan head_bytes true
           (List.filter regex_rule (_magic_table (tables_in_use db))) None)
  /\ events (langinfo_from_magic db head_bytes true) = snd (ensure_tables db)
  /\ (forall e, result (langinfo_from_magic db head_bytes true) = Raise e ->
                e = TypeError \/ e = AttributeError).
Proof.
  rewrite langinfo_from_magic_result, langinfo_from_magic_events.
  destruct (magic_scan_shebang_only head_bytes
              (_magic_table (tables_in_use db)) None)
    as (Hscan & Hwarned & Hfail).
  rewrite Hwarned, app_nil_r. rewrite <- Hscan. auto.
Qed.

(** X12. An answer of the magic lookup is backed by the catalogue: on a
    database whose tables are not built yet, the descriptor returned is
    one of the stored descriptors and one of its own magic numbers, a
    triple, matches the window. *)
Theorem magic_answer_comes_from_a_rule db head_bytes shebang_only li :
  _tables db = None ->
  result (langinfo_from_magic db head_bytes shebang_only) = Ok (Some li) ->
  In li (langinfos db)
  /\ exists start format pattern length,
       In [start; format; pattern] (items (magic_numbers li))
       /\ step (probe head_bytes shebang_only li [start; format; pattern]
                  length) = Hit.
Proof.
  intros Hfresh. rewrite langinfo_from_magic_result, tables_in_use_fresh,
    build_tables_magic by assumption.
  intros Hscan. apply magic_scan_Some in Hscan.
  destruct Hscan as (mn & length & Hin & Hhit).
  unfold flattened_magic in Hin. apply in_flat_map in Hin.
  destruct Hin as (li' & Hli' & Hin). apply in_map_iff in Hin.
  destruct Hin as (mn' & [= -> ->] & Hmn).
  split; [assumption|].
  destruct mn as [|start [|format [|pattern [|? ?]]]];
    try (rewrite probe_wrong_arity in Hhit by (simpl; lia); discriminate).
  exists start, format, pattern, length. auto.
Qed.

End MoreMagicFacts.

Lemma magic_answer_on_widget :
  In Samples.Widget (langinfos (H := Samples.linux) Samples.widget_db)
  /\ exists start format pattern length,
       In [start; format; pattern] (items (magic_numbers Samples.Widget))
       /\ step (probe (H := Samples.linux) Samples.cafebabe false
                  Samples.Widget [start; format; pattern] length) = Hit.
Proof.
  apply (magic_answer_comes_from_a_rule (H := Samples.linux)
           Samples.widget_db Samples.cafebabe false Samples.Widget).
  - reflexivity.
  - vm_compute. reflexivity.
Defined.

(** ** More on the conformance walk *)

Section MoreConformanceFacts.
Variable db : Database.

Lemma conforms_to_loop_mono (check1 check2 : LangInfo -> Res bool) bases b :
  (forall li b', check1 li = Ok b' -> check2 li = Ok b') ->
  conforms_to_loop check1 db bases = Ok b ->
  conforms_to_loop check2 db bases = Ok b.
Proof.
  intros Hchecks. induction bases as [|base rest IH]; simpl; [auto|].
  destruct (langinfo_from_lang db base) as [base_li|[]]; try discriminate; auto.
  destruct (check1 base_li) as [[|]|e] eqn:Hc; try discriminate;
    rewrite (Hchecks _ _ Hc); auto.
Qed.

Lemma conformant_attr_loop_mono
    (inherit1 inherit2 : LangInfo -> Res (option AttrVal)) bases v :
  (forall li v', inherit1 li = Ok v' -> inherit2 li = Ok v') ->
  conformant_attr_loop inherit1 db bases = Ok v ->
  conformant_attr_loop inherit2 db bases = Ok v.
Proof.
  intros Hinherits. induction bases as [|base rest IH]; simpl; [auto|].
  destruct (langinfo_from_lang db base) as [base_li|[]]; try discriminate; auto.
  destruct (inherit1 base_li) as [[val|]|e] eqn:Hc; try discriminate;
    rewrite (Hinherits _ _ Hc); auto.
Qed.

Lemma conforms_to_mono n :
  forall m self lang b,
    n <= m -> conforms_to n db self lang = Ok b ->
    conforms_to m db self lang = Ok b.
Proof.
  induction n as [|n IH]; intros m self lang b Hle; [discriminate|].
  destruct m as [|m]; [lia|]. rewrite !conforms_to_unfold.
  destruct (String.eqb lang (name self)); [auto|].
  destruct (conforms_to_bases self) as [[|base rest]|]; auto.
  destruct (existsb _ _); [auto|].
  apply conforms_to_loop_mono. intros li b'. apply IH. lia.
Qed.

Lemma conformant_attr_mono n :
  forall m self attr v,
    n <= m -> conformant_attr n db self attr = Ok v ->
    conformant_attr m db self attr = Ok v.
Proof.
  induction n as [|n IH]; intros m self attr v Hle; [discriminate|].
  destruct m as [|m]; [lia|]. cbn [conformant_attr].
  destruct (getattr self attr) as [[val|]|]; auto;
    apply conformant_attr_loop_mono; intros li v'; apply IH; lia.
Qed.

Lemma conforms_to_loop_raises (check : LangInfo -> Res bool) bases e :
  (forall li e', check li = Raise e' -> e' = RuntimeError) ->
  conforms_to_loop check db bases = Raise e -> e = RuntimeError.
Proof.
  intros Hcheck. induction bases as [|base rest IH]; simpl; [discriminate|].
  destruct (langinfo_from_lang db base) as [base_li|e0] eqn:Hres.
  - destruct (check base_li) as [[|]|e1] eqn:Hc; try discriminate; auto.
    intros [= <-]. eauto.
  - rewrite (langinfo_from_lang_raises db _ _ Hres). auto.
Qed.

Lemma conformant_attr_loop_raises
    (inherit : LangInfo -> Res (option AttrVal)) bases e :
  (forall li e', inherit li = Raise e' -> e' = RuntimeError) ->
  conformant_attr_loop inherit db bases = Raise e -> e = RuntimeError.
Proof.
  intros Hinherit. induction bases as [|base rest IH]; simpl; [discriminate|].
  destruct (langinfo_from_lang db base) as [base_li|e0] eqn:Hres.
  - destruct (inherit base_li) as [[val|]|e1] eqn:Hc; try discriminate; auto.
    intros [= <-]. eauto.
  - rewrite (langinfo_from_lang_raises db _ _ Hres). auto.
Qed.

Lemma conformant_attr_loop_Some
    (inherit : LangInfo -> Res (option AttrVal)) bases val :
  conformant_attr_loop inherit db bases = Ok (Some val) ->
  exists base base_li,
    In base bases /\ langinfo_from_lang db base = Ok base_li
    /\ inherit base_li = Ok (Some val).
Proof.
  induction bases as [|base rest IH]; simpl; [discriminate|].
  destruct (langinfo_from_lang db base) as [base_li|[]] eqn:Hres;
    try discriminate.
  - destruct (inherit base_li) as [[v|]|e] eqn:Hc; try discriminate.
    + intros [= ->]. exists base, base_li. auto.
    + intros Hrest. destruct (IH Hrest) as (b & bl & Hin & Hr & Hv).
      exists b, bl. auto.
  - intros Hrest. destruct (IH Hrest) as (b & bl & Hin & Hr & Hv).
    exists b, bl. auto.
Qed.

Lemma conformant_attr_loop_None
    (inherit : LangInfo -> Res (option AttrVal)) bases :
  conformant_attr_loop inherit db bases = Ok None ->
  forall base base_li,
    In base bases -> langinfo_from_lang db base = Ok base_li ->
    inherit base_li = Ok None.
Proof.
  induction bases as [|base rest IH]; simpl; [intros _ ? ? []|].
  destruct (langinfo_from_lang db base) as [base_li|[]] eqn:Hres;
    try discriminate.
  - destruct (inherit base_li) as [[v|]|e] eqn:Hc; try discriminate.
    intros Hrest b bl [<-|Hin] Hr; [congruence | eauto].
  - intros Hrest b bl [<-|Hin] Hr; [congruence | eauto].
Qed.

(** X13. Whenever [conforms_to] returns, its answer is the conformance
    relation: true exactly when the target is the descriptor's own name,
    one of its declared bases, or something a declared base that resolves
    conforms to. *)
Theorem conforms_to_answer_is_the_relation depth self lang b :
  conforms_to depth db self lang = Ok b ->
  (b = true <-> conforms_spec db self lang).
Proof.
  destruct b; intros Hb.
  - split; [intros _ | reflexivity]. eapply conforms_to_true_spec; eauto.
  - split; [discriminate|]. intros Hspec. exfalso.
    eapply conforms_to_false_spec; eauto.
Qed.

(** X14. An answer does not depend on how much recursion is left: what
    [conforms_to] or [is_text] returns at one depth, it returns at every
    greater depth, and so does [conformant_attr] for the core data
    attributes. (For the [is_text] property as attribute this is not so:
    [hasattr] swallows the [RuntimeError] of a property that runs out of
    recursion.) *)
Theorem conformance_answers_survive_deeper_limits n m self lang attr :
  n <= m ->
  (forall b, conforms_to n db self lang = Ok b ->
             conforms_to m db self lang = Ok b)
  /\ (forall b, is_text n db self = Ok b -> is_text m db self = Ok b)
  /\ (core_attribute attr = true ->
      forall v, conformant_attr n db self attr = Ok v ->
                conformant_attr m db self attr = Ok v).
Proof.
  intros Hle. split; [|split].
  - intros b. now apply conforms_to_mono.
  - intros b. unfold is_text. now apply conforms_to_mono.
  - intros _ v. now apply conformant_attr_mono.
Qed.

(** X15. The walk absorbs every base the database does not know: the
    only exception [conforms_to], [is_text] and [conformant_attr] can
    raise is the [RuntimeError] of the recursion limit, never
    [LangInfoError]. *)
Theorem conformance_raises_only_at_the_recursion_limit depth self lang attr e :
  (conforms_to depth db self lang = Raise e -> e = RuntimeError)
  /\ (is_text depth db self = Raise e -> e = RuntimeError)
  /\ (conformant_attr depth db self attr = Raise e -> e = RuntimeError).
Proof.
  assert (forall depth self lang e,
             conforms_to depth db self lang = Raise e -> e = RuntimeError)
    as Hconforms.
  { clear. intros depth. induction depth as [|depth IH]; intros self lang e.
    - now intros [= <-].
    - rewrite conforms_to_unfold.
      destruct (String.eqb lang (name self)); [discriminate|].
      destruct (conforms_to_bases self) as [[|base rest]|]; try discriminate.
      destruct (existsb _ _); [discriminate|].
      apply conforms_to_loop_raises. intros li e'. apply IH. }
  split; [apply Hconforms|]. split; [apply Hconforms|].
  revert self attr e. induction depth as [|depth IH]; intros self attr e.
  - now intros [= <-].
  - cbn [conformant_attr].
    destruct (getattr self attr) as [[val|]|]; try discriminate;
      apply conformant_attr_loop_raises; intros li e'; apply IH.
Qed.

(** X16. For the core data attributes, what [conformant_attr] returns is
    read off the walk: a value it returns is the own value of the
    descriptor or of a descriptor reached through resolving bases, the
    descriptor's own value wins as soon as one call can be made, and
    [None] is returned only when no descriptor on the walk has a value. *)
Theorem conformant_attr_reads_the_walk depth self attr :
  core_attribute attr = true ->
  (forall val, getattr self attr = Some (Some val) ->
               conformant_attr (S depth) db self attr = Ok (Some val))
  /\ (forall val,
         conformant_attr depth db self attr = Ok (Some val) ->
         exists li, reaches db self li /\ getattr li attr = Some (Some val))
  /\ (conformant_attr depth db self attr = Ok None ->
      forall li val, reaches db self li -> getattr li attr <> Some (Some val)).
Proof.
  intros _.
  split; [intros val Hown; cbn [conformant_attr]; now rewrite Hown|].
  split.
  - revert self. induction depth as [|depth IH]; intros self val;
      [discriminate|].
    cbn [conformant_attr].
    destruct (getattr self attr) as [[own|]|] eqn:Hown.
    + intros [= ->]. exists self. split; [constructor | assumption].
    + intros Hloop. apply conformant_attr_loop_Some in Hloop.
      destruct Hloop as (base & base_li & Hin & Hres & Hrec).
      destruct (IH _ _ Hrec) as (li & Hreach & Hval).
      exists li. split; [|assumption]. eapply reaches_base; eauto.
    + intros Hloop. apply conformant_attr_loop_Some in Hloop.
      destruct Hloop as (base & base_li & Hin & Hres & Hrec).
      destruct (IH _ _ Hrec) as (li & Hreach & Hval).
      exists li. split; [|assumption]. eapply reaches_base; eauto.
  - revert self. induction depth as [|depth IH]; intros self; [discriminate|].
    cbn [conformant_attr].
    destruct (getattr self attr) as [[own|]|] eqn:Hown; [discriminate| |];
      intros Hloop li val Hreach;
      (inversion Hreach as [|? base base_li ? Hin Hres Hrest]; subst;
       [congruence|];
       eapply IH; [|exact Hrest];
       exact (conformant_attr_loop_None _ _ Hloop base base_li Hin Hres)).
Qed.

End MoreConformanceFacts.

Lemma conforms_to_answer_on_rivals :
  true = true <-> conforms_spec MoreSamples.rivals_db MoreSamples.PHP "Text".
Proof.
  apply (conforms_to_answer_is_the_relation MoreSamples.rivals_db
           1 MoreSamples.PHP "Text" true).
  reflexivity.
Defined.

Lemma deeper_limit_on_chain :
  conforms_to 7 Samples.chain_db Samples.RDF "Text" = Ok true.
Proof.
  apply (proj1 (conformance_answers_survive_deeper_limits Samples.chain_db
                  3 7 Samples.RDF "Text" "exts" ltac:(lia)) true).
  reflexivity.
Defined.

Lemma rival_value_is_found_on_the_walk :
  exists li,
    reaches MoreSamples.rivals_db MoreSamples.PHP li
    /\ getattr li "default_encoding" = Some (Some (AStr "utf-8")).
Proof.
  apply (proj1 (proj2 (conformant_attr_reads_the_walk MoreSamples.rivals_db
                         1 MoreSamples.PHP "default_encoding" eq_refl))
           (AStr "utf-8")).
  reflexivity.
Defined.

(** ** From the catalogue to the tables *)

Section Completeness.
Context `{PyRuntime}.

Lemma stored_descriptor_is_listed db k li :
  Permutation (dict_iter_order (map fst (_langinfo_from_norm_lang db)))
    (map fst (_langinfo_from_norm_lang db)) ->
  dict_get (_langinfo_from_norm_lang db) k = Some li ->
  In li (langinfos db).
Proof.
  intros Hperm Hget. unfold langinfos, dict_values.
  apply list_elem_of_In. apply list_elem_of_omap. exists k.
  split; [|assumption]. apply list_elem_of_In.
  apply (Permutation_in _ (Permutation_sym Hperm)).
  apply dict_get_In. congruence.
Qed.

Lemma claimed_key_is_answered k li claims :
  In (k, li) claims -> exists li', last_claim k claims = Some li'.
Proof.
  intros Hin. destruct (last_claim k claims) as [li'|] eqn:Hlast; [eauto|].
  exfalso. now apply (proj1 (last_claim_None k claims) Hlast li).
Qed.

(** X17. When iterating the catalogue yields every key once, everything a
    stored descriptor lists resolves on a database whose tables are not
    built yet: each of its extensions, each file name it lists as a plain
    string and each of its editor modes gets a descriptor for an answer
    (the descriptor itself, or one that claims the same key later). *)
Theorem listed_keys_resolve db k li :
  _tables db = None ->
  Permutation (dict_iter_order (map fst (_langinfo_from_norm_lang db)))
    (map fst (_langinfo_from_norm_lang db)) ->
  dict_get (_langinfo_from_norm_lang db) k = Some li ->
  (forall ext, In ext (items (exts li)) ->
               exists li', result (langinfo_from_ext db ext) = Ok (Some li'))
  /\ (forall filename, In (FnExact filename) (items (filename_patterns li)) ->
                       exists li', result (langinfo_from_filename db filename)
                                   = Ok (Some li'))
  /\ (forall emacs_mode, In emacs_mode (items (emacs_modes li)) ->
                         exists li',
                           result (langinfo_from_emacs_mode db emacs_mode)
                           = Ok (Some li')).
Proof.
  intros Hfresh Hperm Hget.
  pose proof (stored_descriptor_is_listed db k li Hperm Hget) as Hlisted.
  pose proof (tables_in_use_fresh db Hfresh) as Htables.
  split; [|split].
  - intros ext Hext. rewrite langinfo_from_ext_result, Htables.
    rewrite (proj1 (build_tables_read db _)).
    fold (platform_case ext).
    destruct (claimed_key_is_answered (platform_case ext) li
                (ext_claims (langinfos db))) as [li' ->]; [|eauto].
    unfold ext_claims. apply in_flat_map. exists li. split; [assumption|].
    apply in_flat_map. exists ext. split; [assumption | now left].
  - intros filename Hname.
    destruct (claimed_key_is_answered filename li
                (filename_claims (langinfos db))) as [li' Hlast].
    { unfold filename_claims. apply in_flat_map. exists li.
      split; [assumption|]. apply in_flat_map. exists (FnExact filename).
      split; [assumption | now left]. }
    exists li'.
    assert (_langinfo_from_filename (tables_in_use db) !! filename = Some li')
      as Hlookup by (rewrite Htables, <- Hlast; apply build_tables_read).
    unfold langinfo_from_filename, tables_in_use in *.
    destruct (ensure_tables db) as [[t db'] log]. cbn [fst result] in *.
    now rewrite Hlookup.
  - intros emacs_mode Hmode.
    destruct (claimed_key_is_answered emacs_mode li
                (mode_claims (langinfos db))) as [li' Hlast].
    { unfold mode_claims. apply in_flat_map. exists li.
      split; [assumption|]. apply in_flat_map. exists emacs_mode.
      split; [assumption | now left]. }
    exists li'.
    assert (_li_from_emacs_mode (tables_in_use db) !! emacs_mode = Some li')
      as Hlookup by (rewrite Htables, <- Hlast; apply build_tables_read).
    unfold langinfo_from_emacs_mode, tables_in_use in *.
    destruct (ensure_tables db) as [[t db'] log]. cbn [fst result] in *.
    now rewrite Hlookup.
Qed.

End Completeness.

Lemma widget_extension_resolves :
  exists li',
    result (langinfo_from_ext (H := Samples.linux) Samples.widget_db ".wdg")
    = Ok (Some li').
Proof.
  apply (proj1 (listed_keys_resolve (H := Samples.linux) Samples.widget_db
                  "widget" Samples.Widget eq_refl
                  ltac:(vm_compute; repeat constructor) eq_refl)
           ".wdg").
  simpl. now left.
Defined.

(** ** Extensions and case *)





(** ** What building the tables reports *)

Section BuildLog.
Context `{PyRuntime}.

Lemma fold_log {A} (ev : Event) (f : Build -> A -> Build) (Q : A -> Prop) :
  (forall b x, In ev (snd (f b x)) <-> In ev (snd b) \/ Q x) ->
  forall l b,
    In ev (snd (fold_left f l b))
    <-> In ev (snd b) \/ exists x, In x l /\ Q x.
Proof.
  intros Hstep l. induction l as [|x l IH]; intros b; simpl.
  - split; [auto | intros [?|(? & [] & _)]; assumption].
  - rewrite IH, Hstep. split.
    + intros [[Hb|Hx]|(y & Hy & HQ)]; eauto 6.
    + intros [Hb|(y & [<-|Hy] & HQ)]; eauto 6.
Qed.

Lemma add_ext_log ext lang li b x :
  In (LogWarnExtNoDot ext lang) (snd (add_ext li b x))
  <-> In (LogWarnExtNoDot ext lang) (snd b)
      \/ (x = ext /\ name li = lang /\ startswith "." x = false).
Proof.
  destruct b as [t log]. unfold add_ext. cbn [snd].
  destruct (startswith "." x) eqn:Hdot;
    destruct (_langinfo_from_ext t !! _);
    rewrite ?in_app_iff; cbn;
    intuition (try discriminate; try congruence).
Qed.

Lemma add_ext_doctype_log lang dt li b x :
  In (LogDebugInvalidDoctype lang dt) (snd (add_ext li b x))
  <-> In (LogDebugInvalidDoctype lang dt) (snd b) \/ False.
Proof.
  destruct b as [t log]. unfold add_ext. cbn [snd].
  destruct (startswith "." x) eqn:Hdot;
    destruct (_langinfo_from_ext t !! _);
    rewrite ?in_app_iff; cbn;
    intuition (try discriminate; try congruence).
Qed.

Lemma add_doctype_log lang dt li b x :
  In (LogDebugInvalidDoctype lang dt) (snd (add_doctype li b x))
  <-> In (LogDebugInvalidDoctype lang dt) (snd b)
      \/ (x = dt /\ name li = lang /\ List.length x <> 4).
Proof.
  destruct b as [t log].
  destruct x as [|? [|? [|? [|? [|? ?]]]]]; cbn;
    rewrite ?in_app_iff; cbn;
    intuition (try discriminate; try congruence; try lia).
Qed.

Lemma add_doctype_ext_log ext lang li b x :
  In (LogWarnExtNoDot ext lang) (snd (add_doctype li b x))
  <-> In (LogWarnExtNoDot ext lang) (snd b) \/ False.
Proof.
  destruct b as [t log].
  destruct x as [|? [|? [|? [|? [|? ?]]]]]; cbn;
    rewrite ?in_app_iff; cbn;
    intuition (try discriminate; try congruence).
Qed.

Lemma quiet_steps ev li :
  (forall b x, In ev (snd (add_filename_pattern li b x))
               <-> In ev (snd b) \/ False)
  /\ (forall b x, In ev (snd (add_magic_number li b x))
                  <-> In ev (snd b) \/ False)
  /\ (forall b x, In ev (snd (add_emacs_mode li b x))
                  <-> In ev (snd b) \/ False).
Proof. repeat split; destruct b; cbn in *; tauto. Qed.

Lemma no_culprit {A} (l : list A) (P : Prop) :
  (P \/ exists x, In x l /\ False) <-> P.
Proof. split; [intros [?|(? & _ & [])]; assumption | auto]. Qed.

Lemma index_langinfo_log b li :
  (forall ext lang,
      In (LogWarnExtNoDot ext lang) (snd (index_langinfo b li))
      <-> In (LogWarnExtNoDot ext lang) (snd b)
          \/ (name li = lang /\ In ext (items (exts li))
              /\ startswith "." ext = false))
  /\ (forall lang dt,
         In (LogDebugInvalidDoctype lang dt) (snd (index_langinfo b li))
         <-> In (LogDebugInvalidDoctype lang dt) (snd b)
             \/ (name li = lang /\ In dt (items (doctypes li))
                 /\ List.length dt <> 4)).
Proof.
  unfold index_langinfo. split.
  - intros ext lang.
    destruct (quiet_steps (LogWarnExtNoDot ext lang) li)
      as (Hpat & Hmagic & Hmode).
    rewrite (fold_log _ _ _ Hmode), no_culprit.
    rewrite (fold_log _ _ _ (add_doctype_ext_log ext lang li)), no_culprit.
    rewrite (fold_log _ _ _ Hmagic), no_culprit.
    rewrite (fold_log _ _ _ Hpat), no_culprit.
    rewrite (fold_log _ _ _ (add_ext_log ext lang li)).
    split; (intros [Hb|Hnew]; [now left | right]).
    + destruct Hnew as (x & Hx & -> & Hname & Hdot). auto.
    + exists ext. tauto.
  - intros lang dt.
    destruct (quiet_steps (LogDebugInvalidDoctype lang dt) li)
      as (Hpat & Hmagic & Hmode).
    rewrite (fold_log _ _ _ Hmode), no_culprit.
    rewrite (fold_log _ _ _ (add_doctype_log lang dt li)).
    rewrite (fold_log _ _ _ Hmagic), no_culprit.
    rewrite (fold_log _ _ _ Hpat), no_culprit.
    rewrite (fold_log _ _ _ (add_ext_doctype_log lang dt li)), no_culprit.
    split; (intros [Hb|Hnew]; [now left | right]).
    + destruct Hnew as (x & Hx & -> & Hname & Hlen). auto.
    + exists dt. tauto.
Qed.

Lemma fold_index_langinfo_log lis :
  forall b,
    (forall ext lang,
        In (LogWarnExtNoDot ext lang) (snd (fold_left index_langinfo lis b))
        <-> In (LogWarnExtNoDot ext lang) (snd b)
            \/ exists li, In li lis /\ name li = lang
                          /\ In ext (items (exts li))
                          /\ startswith "." ext = false)
    /\ (forall lang dt,
           In (LogDebugInvalidDoctype lang dt)
             (snd (fold_left index_langinfo lis b))
           <-> In (LogDebugInvalidDoctype lang dt) (snd b)
               \/ exists li, In li lis /\ name li = lang
                             /\ In dt (items (doctypes li))
                             /\ List.length dt <> 4).
Proof.
  induction lis as [|li lis IH]; intros b; simpl.
  - split; intros; (split; [auto | intros [?|(? & [] & _)]; assumption]).
  - destruct (IH (index_langinfo b li)) as [IHext IHdt].
    destruct (index_langinfo_log b li) as [Hext Hdt].
    split.
    + intros ext lang. rewrite IHext, Hext. split.
      * intros [[Hb|Hnew]|(li' & Hin & Hrest)]; eauto 8.
      * intros [Hb|(li' & [<-|Hin] & Hname & Hrest)]; eauto 8.
    + intros lang dt. rewrite IHdt, Hdt. split.
      * intros [[Hb|Hnew]|(li' & Hin & Hrest)]; eauto 8.
      * intros [Hb|(li' & [<-|Hin] & Hname & Hrest)]; eauto 8.
Qed.

Lemma first_lookup_logs_the_build db ext :
  _tables db = None ->
  events (langinfo_from_ext db ext) = snd (_build_tables db).
Proof.
  intros Hfresh. unfold langinfo_from_ext.
  now rewrite ensure_tables_fresh.
Qed.

(** X18. Bad entries are reported and nothing more: the first lookup on
    a database logs a warning for exactly the extensions that lack the
    leading dot, and a debug line for exactly the doctype tuples that do
    not have four items, each with the name of the descriptor that lists
    it. *)
Theorem first_lookup_reports_bad_entries db ext0 :
  _tables db = None ->
  (forall ext lang,
      In (LogWarnExtNoDot ext lang) (events (langinfo_from_ext db ext0))
      <-> exists li, In li (langinfos db) /\ name li = lang
                     /\ In ext (items (exts li))
                     /\ startswith "." ext = false)
  /\ (forall lang dt,
         In (LogDebugInvalidDoctype lang dt)
           (events (langinfo_from_ext db ext0))
         <-> exists li, In li (langinfos db) /\ name li = lang
                        /\ In dt (items (doctypes li))
                        /\ List.length dt <> 4).
Proof.
  intros Hfresh. rewrite first_lookup_logs_the_build by assumption.
  unfold _build_tables, langinfos.
  destruct (fold_index_langinfo_log
              (dict_values (_langinfo_from_norm_lang db)) (empty_tables, []))
    as [Hext Hdt].
  split.
  - intros ext lang. rewrite Hext. cbn [snd In]. tauto.
  - intros lang dt. rewrite Hdt. cbn [snd In]. tauto.
Qed.

End BuildLog.

Lemma rivals_undotted_extension_is_reported :
  In (LogWarnExtNoDot "inc" "PHP")
    (events (langinfo_from_ext (H := Samples.linux) MoreSamples.rivals_db ".py")).
Proof.
  apply (proj1 (first_lookup_reports_bad_entries (H := Samples.linux)
                  MoreSamples.rivals_db ".py" eq_refl) "inc" "PHP").
  exists MoreSamples.PHP. vm_compute. tauto.
Defined.
